(** * The weighted-ensemble estimator of torchMD-DMS

    A shallow embedding of [torchmdexp/weighted_ensembles/weighted_ensemble.py]
    (class [WeightedEnsemble]) and of the properties its specification states.

    Numbers.  A tensor element is a real number or one of the IEEE special
    values (two infinities, not-a-number); finite results are computed exactly
    (rounding, overflow and the sign of zero are not modelled).  The special
    values are kept because the code reaches them on ordinary inputs:
    [torch.log] of a zero weight is [-inf] and [0 * -inf] is [nan].

    Autograd.  A tensor element carries, next to its value, the flag
    [requires_grad] and its derivative with respect to every coordinate of the
    parameters of the potential (coordinate [j] of parameter tensor [k]).
    [detach] keeps the value and drops both. *)

From Stdlib Require Import String.
From Stdlib Require Import Reals Lra Lia List Bool ZArith.
Import ListNotations.

Set Implicit Arguments.

Local Open Scope R_scope.

(** ** Tensor elements *)

Inductive scalar : Type :=
| Finite (r : R)
| PosInf
| NegInf
| NaN.

Definition Rgtb (a b : R) : bool := if Rlt_dec b a then true else false.
Definition Reqb (a b : R) : bool := if Req_dec_T a b then true else false.

Definition fneg (a : scalar) : scalar :=
  match a with
  | Finite x => Finite (- x)
  | PosInf => NegInf
  | NegInf => PosInf
  | NaN => NaN
  end.

Definition fadd (a b : scalar) : scalar :=
  match a, b with
  | NaN, _ | _, NaN => NaN
  | Finite x, Finite y => Finite (x + y)
  | PosInf, NegInf | NegInf, PosInf => NaN
  | PosInf, _ | _, PosInf => PosInf
  | NegInf, _ | _, NegInf => NegInf
  end.

Definition fsub (a b : scalar) : scalar := fadd a (fneg b).

(** The infinity that has the sign of [x]; [x] is not zero where this is used. *)
Definition signed_inf (x : R) : scalar := if Rgtb x 0 then PosInf else NegInf.

Definition fmul (a b : scalar) : scalar :=
  match a, b with
  | NaN, _ | _, NaN => NaN
  | Finite x, Finite y => Finite (x * y)
  | Finite x, PosInf | PosInf, Finite x =>
      if Reqb x 0 then NaN else signed_inf x
  | Finite x, NegInf | NegInf, Finite x =>
      if Reqb x 0 then NaN else signed_inf (- x)
  | PosInf, PosInf | NegInf, NegInf => PosInf
  | PosInf, NegInf | NegInf, PosInf => NegInf
  end.

(** Division; a zero divisor is the positive zero. *)
Definition fdiv (a b : scalar) : scalar :=
  match a, b with
  | NaN, _ | _, NaN => NaN
  | Finite x, Finite y =>
      if Reqb y 0 then (if Reqb x 0 then NaN else signed_inf x)
      else Finite (x / y)
  | Finite _, _ => Finite 0
  | PosInf, Finite y => if Rgtb 0 y then NegInf else PosInf
  | NegInf, Finite y => if Rgtb 0 y then PosInf else NegInf
  | _, _ => NaN
  end.

Definition fexp (a : scalar) : scalar :=
  match a with
  | Finite x => Finite (exp x)
  | PosInf => PosInf
  | NegInf => Finite 0
  | NaN => NaN
  end.

(** [torch.log]: [-inf] at zero, [nan] below. *)
Definition flog (a : scalar) : scalar :=
  match a with
  | Finite x => if Rgtb x 0 then Finite (ln x)
                else if Reqb x 0 then NegInf else NaN
  | PosInf => PosInf
  | NegInf => NaN
  | NaN => NaN
  end.

Definition fsqrt (a : scalar) : scalar :=
  match a with
  | Finite x => if Rgtb 0 x then NaN else Finite (sqrt x)
  | PosInf => PosInf
  | NegInf => NaN
  | NaN => NaN
  end.

(** [a > b]; every comparison with [nan] is false. *)
Definition fgt (a b : scalar) : bool :=
  match a, b with
  | NaN, _ | _, NaN => false
  | Finite x, Finite y => Rgtb x y
  | Finite _, PosInf => false
  | Finite _, NegInf => true
  | PosInf, PosInf => false
  | PosInf, _ => true
  | NegInf, _ => false
  end.

(** [a == b] and [a != b]. *)
Definition feq (a b : scalar) : bool :=
  match a, b with
  | Finite x, Finite y => Reqb x y
  | PosInf, PosInf | NegInf, NegInf => true
  | _, _ => false
  end.

Definition fne (a b : scalar) : bool := negb (feq a b).

Definition fsum (l : list scalar) : scalar := fold_right fadd (Finite 0) l.

(** [torch.mean] of a one-dimensional tensor ([nan] when it is empty). *)
Definition fmean (l : list scalar) : scalar :=
  fdiv (fsum l) (Finite (INR (length l))).

Definition is_finite (a : scalar) : Prop := exists r, a = Finite r.

Definition Rsum (l : list R) : R := fold_right Rplus 0 l.

(** ** Autograd view of a tensor element *)

Record dual : Type := mkDual {
  val : scalar;
  requires_grad : bool;
  tan : nat -> nat -> scalar
}.

Definition no_tan : nat -> nat -> scalar := fun _ _ => Finite 0.

(** A constant ([torch.tensor(...)] of plain numbers). *)
Definition dconst (x : scalar) : dual := mkDual x false no_tan.

(** [t.detach()] *)
Definition detach (a : dual) : dual := mkDual (val a) false no_tan.

Definition dneg (a : dual) : dual :=
  mkDual (fneg (val a)) (requires_grad a) (fun k j => fneg (tan a k j)).

Definition dadd (a b : dual) : dual :=
  mkDual (fadd (val a) (val b)) (requires_grad a || requires_grad b)
         (fun k j => fadd (tan a k j) (tan b k j)).

Definition dsub (a b : dual) : dual :=
  mkDual (fsub (val a) (val b)) (requires_grad a || requires_grad b)
         (fun k j => fsub (tan a k j) (tan b k j)).

Definition dmul (a b : dual) : dual :=
  mkDual (fmul (val a) (val b)) (requires_grad a || requires_grad b)
         (fun k j => fadd (fmul (tan a k j) (val b)) (fmul (val a) (tan b k j))).

Definition ddiv (a b : dual) : dual :=
  mkDual (fdiv (val a) (val b)) (requires_grad a || requires_grad b)
         (fun k j => fsub (fdiv (tan a k j) (val b))
                          (fdiv (fmul (val a) (tan b k j))
                                (fmul (val b) (val b)))).

(** Division of a tensor by a Python number. *)
Definition ddivc (a : dual) (c : R) : dual :=
  mkDual (fdiv (val a) (Finite c)) (requires_grad a)
         (fun k j => fdiv (tan a k j) (Finite c)).

Definition dexp (a : dual) : dual :=
  mkDual (fexp (val a)) (requires_grad a)
         (fun k j => fmul (fexp (val a)) (tan a k j)).

Definition dlog (a : dual) : dual :=
  mkDual (flog (val a)) (requires_grad a)
         (fun k j => fdiv (tan a k j) (val a)).

(** [t.sum()] of a one-dimensional tensor.  The flag [requires_grad] is
    carried by the elements: the sum of an empty tensor is a constant here,
    whereas torch keeps the flag of the empty tensor it sums, so what is
    stated about [requires_grad] is for tensors with at least one element. *)
Definition dsum (l : list dual) : dual := fold_right dadd (dconst (Finite 0)) l.

(** ** Python values, errors, dictionaries *)

Inductive error : Type :=
| ZeroDivisionError
| IndexError
| RuntimeError
| ValueError.

Inductive result (A : Type) : Type :=
| Ok (a : A)
| Err (e : error).

Arguments Ok {A} a.
Arguments Err {A} e.

Definition bind {A B : Type} (m : result A) (f : A -> result B) : result B :=
  match m with
  | Ok a => f a
  | Err e => Err e
  end.

Notation "x <- m ;; k" := (bind m (fun x => k))
  (at level 61, m at next level, right associativity).
Notation "' p <- m ;; k" := (bind m (fun x => let p := x in k))
  (at level 61, p pattern, m at next level, right associativity).

Inductive pyval : Type :=
| PyNone
| PyBool (b : bool)
| PyInt (z : Z)
| PyFloat (x : scalar)
| PyStr (s : string).

(** The number a Python value stands for in a comparison, when it is one. *)
Definition py_number (v : pyval) : option scalar :=
  match v with
  | PyBool b => Some (Finite (if b then 1 else 0))
  | PyInt z => Some (Finite (IZR z))
  | PyFloat x => Some x
  | PyNone | PyStr _ => None
  end.

(** Python's [v == w]. *)
Definition py_eq (v w : pyval) : bool :=
  match py_number v, py_number w with
  | Some x, Some y => feq x y
  | None, None =>
      match v, w with
      | PyNone, PyNone => true
      | PyStr s, PyStr s' => String.eqb s s'
      | _, _ => false
      end
  | _, _ => false
  end.

Definition dict : Type := list (string * pyval).

(** [d[key] = v] *)
Fixpoint dict_set (d : dict) (key : string) (v : pyval) : dict :=
  match d with
  | [] => [(key, v)]
  | (k, w) :: d' =>
      if String.eqb k key then (k, v) :: d' else (k, w) :: dict_set d' key v
  end.

(** [d[key]]; a missing key is not reached by the code below. *)
Fixpoint dict_get (d : dict) (key : string) : pyval :=
  match d with
  | [] => PyNone
  | (k, w) :: d' => if String.eqb k key then w else dict_get d' key
  end.

(** ** One-dimensional tensors *)

(** [l[a:b]] *)
Definition slice {A : Type} (l : list A) (a b : nat) : list A :=
  firstn (b - a) (skipn a l).

Fixpoint map2 {A B C : Type} (f : A -> B -> C) (l : list A) (l' : list B)
  : list C :=
  match l, l' with
  | a :: t, b :: t' => f a b :: map2 f t t'
  | _, _ => []
  end.

(** An elementwise operation on two one-dimensional tensors, with torch's
    broadcasting: equal sizes, or one of the two of size one. *)
Definition broadcast2 (f : dual -> dual -> dual) (a b : list dual)
  : result (list dual) :=
  if Nat.eqb (length a) (length b) then Ok (map2 f a b)
  else match a, b with
       | [x], _ => Ok (map (f x) b)
       | _, [y] => Ok (map (fun x => f x y) a)
       | _, _ => Err RuntimeError
       end.

Definition BOLTZMAN : R := 1987191 / 1000000000.

(** ** The estimator *)

(** A coordinate snapshot has one row of three coordinates per atom; the
    embeddings have one row of atom types per topology. *)
Definition position : Type := (scalar * scalar * scalar)%type.
Definition state : Type := list position.
Definition embedding : Type := list Z.

(** Parameter tensors and gradient slots ([p.grad], possibly [None]), both
    flattened. *)
Definition array : Type := list scalar.

Section WeightedEnsemble.

(** The collaborators: the potential (a function of its parameters), the
    metric, the loss transform and the optimizer's update rule. *)
Variable nnp : list array -> list Z -> list position -> list nat
               -> result (list dual).
Variable metric : state -> state -> scalar.
Variable loss_fn : dual -> dual.
Variable opt_state : Type.
Variable optimizer_step : list array -> list (option array) -> opt_state
                          -> list array * opt_state.

(** [zero_grad(set_to_none=...)]: the default of the installed torch. *)
Variable set_to_none : bool.

(** Configuration set by [__init__]. *)
Variable T : R.
Variable replicas : nat.

(** Modelled from the spec: the capacity of [clip_grad.Queue], the bounded
    history of gradient norms; the module [torchmdexp.utils.clip_grad] is
    not among the sources. *)
Variable max_len : nat.

(** What an instance holds and mutates: the parameters of [self.nnp] with
    their gradient slots (shared with [self.optimizer]), the optimizer's own
    state and [self.gradnorm_queue]. *)
Record WeightedEnsemble : Type := mkWE {
  theta : list array;
  grad : list (option array);
  optimizer : opt_state;
  gradnorm_queue : list scalar
}.

(** The body of the loop of [_extEpot], lines 115-131, for the replicas
    [ireps] still to do. *)
Fixpoint extEpot_loop (self : WeightedEnsemble) (states : list state)
    (embeddings : list embedding) (batch_num : nat) (ireps : list nat)
    (ext_energies ext_energies_hat : list dual)
  : result (list dual * list dual) :=
  match ireps with
  | [] => Ok (ext_energies, ext_energies_hat)
  | irepl :: ireps' =>
      let batch_states :=
        slice states (batch_num * irepl) (batch_num * (irepl + 1)) in
      let pos := concat batch_states in
      match embeddings with
      | [] => Err IndexError
      | embeddings_0 :: _ =>
          let embeddings_nnp :=
            repeat embeddings_0 (length batch_states) in
          let batch :=
            flat_map (fun i => repeat i (length embeddings_0))
                     (seq 0 (length embeddings_nnp)) in
          batch_ext_energies <- nnp (theta self) (concat embeddings_nnp) pos batch ;;
          let batch_ext_energies_hat := map detach batch_ext_energies in
          extEpot_loop self states embeddings batch_num ireps'
            (ext_energies ++ batch_ext_energies)
            (ext_energies_hat ++ batch_ext_energies_hat)
      end
  end.

(** The potential returns a column of energies, which [squeeze(1)] turns into
    a one-dimensional tensor; both are lists here. *)
Definition _extEpot (self : WeightedEnsemble) (states : list state)
    (embeddings : list embedding) (mode : string)
  : result (list dual * list dual) :=
  match replicas with
  | O => Err ZeroDivisionError
  | S _ =>
      let batch_num := (length states / replicas)%nat in
      extEpot_loop self states embeddings batch_num (seq 0 replicas) [] []
  end.

(** Lines 146-147: the exponentials and their normalisation. *)
Definition normalize (U_arg : list dual) : list dual :=
  let exponentials := map dexp U_arg in
  map (fun e => ddiv e (dsum exponentials)) exponentials.

Definition _weights (self : WeightedEnsemble) (states : list state)
    (embeddings : list embedding) : result (list dual * list dual) :=
  ' (U_ext, U_ext_hat) <- _extEpot self states embeddings "train"%string ;;
  U_diff <- broadcast2 dsub U_ext U_ext_hat ;;
  let U_arg := map (fun d => dneg (ddivc d (T * BOLTZMAN))) U_diff in
  Ok (normalize U_arg, U_ext_hat).

Definition _effectiven (weights : list dual) : result dual :=
  let lnwi := map dlog weights in
  prod <- broadcast2 dmul weights lnwi ;;
  Ok (detach (dexp (dneg (dsum prod)))).

(** [torch.where(obs > 10e6, 10e6, obs)] on one element. *)
Definition clamp_obs (o : scalar) : scalar :=
  if fgt o (Finite 10000000) then Finite 10000000 else o.

Definition compute_we (self : WeightedEnsemble) (states : list state)
    (crystal : state) (embeddings : list embedding)
    (neff_threshold : pyval) : result (dual * scalar) :=
  ' (weights, U_ext_hat) <- _weights self states embeddings ;;
  let n := length weights in
  let obs := map (fun state => metric state crystal) states in
  let obs := map clamp_obs obs in
  let avg_metric := fmean obs in
  prod <- broadcast2 dmul weights (map dconst obs) ;;
  let w_ensemble := dsum prod in
  Ok (w_ensemble, avg_metric).

(** The argument [val] of the source is [val_flag] here, [val] being the value
    of a tensor element. *)
Definition compute_loss (self : WeightedEnsemble) (crystal : state)
    (states : list state) (embeddings : list embedding) (val_flag : pyval)
  : result (dual * dict) :=
  ' (w_e, avg_metric) <- compute_we self states crystal embeddings PyNone ;;
  let values_dict : dict := [] in
  let we_loss := loss_fn w_e in
  let loss := we_loss in
  let values_dict :=
    if py_eq val_flag (PyBool false)
    then dict_set (dict_set values_dict "loss_2"%string PyNone)
                  "loss_1"%string (PyFloat (val we_loss))
    else dict_set (dict_set values_dict "val_loss_2"%string PyNone)
                  "val_loss_1"%string (PyFloat (val we_loss)) in
  let values_dict := dict_set values_dict "avg_metric"%string (PyFloat avg_metric) in
  Ok (loss, values_dict).

(** [self.optimizer.zero_grad()] *)
Definition zero_grad (self : WeightedEnsemble) : WeightedEnsemble :=
  let clear (g : option array) : option array :=
    if set_to_none then None
    else option_map (map (fun _ => Finite 0)) g in
  mkWE (theta self) (map clear (grad self)) (optimizer self)
       (gradnorm_queue self).

(** The gradient slots after [loss.backward()]: the derivative of the loss
    with respect to parameter [k] is added to the slot of parameter [k].
    Every parameter is taken to be trainable and to take part in the loss;
    torch leaves the slot of any other parameter as it was.  The properties
    below use only that [backward] fills or keeps slots, never which ones. *)
Fixpoint accumulate (loss : dual) (k : nat) (params : list array)
    (slots : list (option array)) : list (option array) :=
  match params, slots with
  | p :: params', g :: slots' =>
      let d := map (tan loss k) (seq 0 (length p)) in
      match g with
      | None => Some d
      | Some g0 => Some (map2 fadd g0 d)
      end :: accumulate loss (S k) params' slots'
  | _, _ => slots
  end.

(** [loss.backward()]; torch refuses a tensor that does not require grad. *)
Definition backward (loss : dual) (self : WeightedEnsemble)
  : result WeightedEnsemble :=
  if requires_grad loss
  then Ok (mkWE (theta self) (accumulate loss 0 (theta self) (grad self))
                (optimizer self) (gradnorm_queue self))
  else Err RuntimeError.

(** The list [grads] built at lines 230-237. *)
Definition collect_grads (grads_to_cpu : bool) (self : WeightedEnsemble)
  : list (option array) :=
  if grads_to_cpu then grad self
  else filter (fun g => match g with Some _ => true | None => false end)
              (grad self).

(** The exception, or the returned triple, and the instance afterwards. *)
Definition compute_gradients (self : WeightedEnsemble) (crystal : state)
    (native_ensemble : pyval) (states : list state)
    (embeddings : list embedding) (grads_to_cpu : bool) (val_flag : pyval)
  : result (option (list (option array)) * scalar * dict) * WeightedEnsemble :=
  if py_eq val_flag (PyBool false) then
    let self := zero_grad self in
    match compute_loss self crystal states embeddings (PyBool false) with
    | Err e => (Err e, self)
    | Ok (loss, values_dict) =>
        let values_dict :=
          dict_set values_dict "train_avg_metric"%string
                   (dict_get values_dict "avg_metric"%string) in
        if fne (val loss) (Finite 0) then
          match backward loss self with
          | Err e => (Err e, self)
          | Ok self =>
              let grads := collect_grads grads_to_cpu self in
              (Ok (Some grads, val loss, values_dict), self)
          end
        else
          let grads := None in
          (Ok (grads, val loss, values_dict), self)
    end
  else if py_eq val_flag (PyBool true) then
    let grads := None in
    match compute_loss self crystal states embeddings (PyBool false) with
    | Err e => (Err e, self)
    | Ok (loss, values_dict) =>
        let loss := detach loss in
        let values_dict :=
          dict_set values_dict "val_avg_metric"%string
                   (dict_get values_dict "avg_metric"%string) in
        (Ok (grads, val loss, values_dict), self)
    end
  else (Err ValueError, self).

(** Modelled from the spec: [clip_grad.Queue], a first-in first-out history
    of at most [max_len] gradient norms with its mean and its (population)
    standard deviation; [torchmdexp/utils/clip_grad.py] is not among the
    sources. *)
Definition queue_add (q : list scalar) (x : scalar) : list scalar :=
  let q' := q ++ [x] in
  if Nat.ltb max_len (length q') then tl q' else q'.

(** Modelled from the spec: [Queue.mean()], same missing module. *)
Definition queue_mean (q : list scalar) : scalar := fmean q.

(** Modelled from the spec: [Queue.std()], same missing module. *)
Definition queue_std (q : list scalar) : scalar :=
  let m := fmean q in
  fsqrt (fmean (map (fun x => fmul (fsub x m) (fsub x m)) q)).

(** The 2-norm of a flattened tensor. *)
Definition norm2 (g : array) : scalar :=
  fsqrt (fsum (map (fun x => fmul x x) g)).

(** Modelled from the spec: [clip_grad.get_grad_norm], the total gradient
    norm across the parameters that have a gradient; same missing module. *)
Definition get_grad_norm (slots : list (option array)) : scalar :=
  norm2 (flat_map (fun g => match g with
                            | Some g0 => [norm2 g0]
                            | None => []
                            end) slots).

(** [torch.nn.utils.clip_grad_norm_(p, max_norm)] on the single parameter
    [p] whose gradient is [g]: the gradient is scaled by
    [min(max_norm / (norm(g) + 1e-6), 1)]. *)
Definition clip_grad_norm_ (g : array) (max_norm : scalar) : array :=
  let total_norm := norm2 g in
  let clip_coef := fdiv max_norm (fadd total_norm (Finite (1 / 1000000))) in
  let clip_coef_clamped :=
    if fgt clip_coef (Finite 1) then Finite 1 else clip_coef in
  map (fun x => fmul x clip_coef_clamped) g.

Definition dynamic_max_grad_norm (self : WeightedEnsemble) : scalar :=
  fadd (fmul (Finite (15 / 10)) (queue_mean (gradnorm_queue self)))
       (fmul (Finite 2) (queue_std (gradnorm_queue self))).

Definition clip_gradients (self : WeightedEnsemble) : WeightedEnsemble :=
  let dynamic_max_grad_norm := dynamic_max_grad_norm self in
  let grad_norm := get_grad_norm (grad self) in
  let slots :=
    map (fun g => match g with
                  | Some g0 => Some (clip_grad_norm_ g0 dynamic_max_grad_norm)
                  | None => None
                  end) (grad self) in
  let queue :=
    if fgt grad_norm dynamic_max_grad_norm
    then queue_add (gradnorm_queue self) dynamic_max_grad_norm
    else queue_add (gradnorm_queue self) grad_norm in
  mkWE (theta self) slots (optimizer self) queue.

(** [for g, p in zip(gradients, self.nnp.parameters())], lines 261-263. *)
Fixpoint assign_grads (gradients : list (option array))
    (slots : list (option array)) : list (option array) :=
  match gradients, slots with
  | g :: gradients', s :: slots' =>
      match g with
      | Some g0 => Some g0
      | None => s
      end :: assign_grads gradients' slots'
  | _, _ => slots
  end.

Definition apply_gradients (self : WeightedEnsemble)
    (gradients : option (list (option array))) : WeightedEnsemble :=
  let self :=
    match gradients with
    | None | Some [] => self
    | Some gs =>
        clip_gradients
          (mkWE (theta self) (assign_grads gs (grad self)) (optimizer self)
                (gradnorm_queue self))
    end in
  let (params, opt) :=
    optimizer_step (theta self) (grad self) (optimizer self) in
  mkWE params (grad self) opt (gradnorm_queue self).

End WeightedEnsemble.

(** The real number behind a finite element (0 for the special values). *)
Definition real_of (a : scalar) : R :=
  match a with
  | Finite x => x
  | _ => 0
  end.

(** ** Quantities the statements speak about *)

(** The unnormalized log-weight of line 140, for a state of energy [e] whose
    detached copy is [e_hat], with [c = T * BOLTZMAN]. *)
Definition log_weight (c : R) (e e_hat : dual) : dual :=
  dneg (ddivc (dsub e e_hat) c).

(** The derivative of the log-weight of a state of energy [e], with respect to
    coordinate [j] of parameter [k]. *)
Definition dlog_weight (c : R) (k j : nat) (e : dual) : R :=
  - (real_of (tan e k j) / c).

(** The sum [sum_i w_i * ln(w_i)] over real weights. *)
Definition plogp_sum (ws : list R) : R := Rsum (map (fun w => w * ln w) ws).

(** The call of the potential at lines 118-127 on one sub-batch, with the
    first embedding row repeated for each of its states. *)
Definition potential_on
    (nnp : list array -> list Z -> list position -> list nat
           -> result (list dual))
    (params : list array) (embeddings_0 : embedding)
    (batch_states : list state) : result (list dual) :=
  nnp params
      (concat (repeat embeddings_0 (length batch_states)))
      (concat batch_states)
      (flat_map (fun i => repeat i (length embeddings_0))
                (seq 0 (length (repeat embeddings_0 (length batch_states))))).

(** ** A concrete potential and ensemble, for the examples *)

(** One-atom states; the potential gives a state the energy [theta * x] with
    [theta = 1], whose derivative with respect to [theta] is [x]. *)
Definition nnp_linear (params : list array) (embeddings_nnp : list Z)
    (pos : list position) (batch : list nat) : result (list dual) :=
  Ok (map (fun p : position =>
             let '(x, _, _) := p in mkDual x true (fun _ _ => x)) pos).

Definition atom_at (x : R) : state := [(Finite x, Finite 0, Finite 0)].

(** Four states of energies [0, 0, 0, 100000]. *)
Definition four_states : list state :=
  [atom_at 0; atom_at 0; atom_at 0; atom_at 100000].

Definition one_embedding : list embedding := [[1%Z]].

(** An instance as [__init__] leaves it, for one scalar parameter: no
    gradient yet, the history seeded with 3000. *)
Definition fresh_instance : WeightedEnsemble unit :=
  mkWE [[Finite 1]] [None] tt [Finite 3000].

(** The energies [nnp_linear] gives to [four_states]. *)
Definition four_energies : list dual :=
  [mkDual (Finite 0) true (fun _ _ => Finite 0);
   mkDual (Finite 0) true (fun _ _ => Finite 0);
   mkDual (Finite 0) true (fun _ _ => Finite 0);
   mkDual (Finite 100000) true (fun _ _ => Finite 100000)].

(** Three one-atom states. *)
Definition three_states : list state := [atom_at 1; atom_at 2; atom_at 3].

(** A metric for the examples: the x coordinate of the first atom. *)
Definition metric_first_x (s crystal : state) : scalar :=
  match s with
  | (x, _, _) :: _ => x
  | [] => Finite 0
  end.

(** Four states, the last with a metric value above the bound [1e7]. *)
Definition outlier_states : list state :=
  [atom_at 1; atom_at 2; atom_at 3; atom_at 20000000].

(** A loss transform that returns 0 for every weighted observable. *)
Definition zero_loss_fn (w_e : dual) : dual := dconst (Finite 0).

(** An instance whose single parameter holds an accumulated gradient. *)
Definition instance_with_grad : WeightedEnsemble unit :=
  mkWE [[Finite 1]] [Some [Finite 5]] tt [Finite 3000].

(** Two scalar parameters, each with the gradient [4000], and the history as
    [__init__] seeds it. *)
Definition two_param_instance : WeightedEnsemble unit :=
  mkWE [[Finite 1]; [Finite 1]] [Some [Finite 4000]; Some [Finite 4000]] tt
       [Finite 3000].

(** An optimizer step that leaves the parameters as they are. *)
Definition keep_params (params : list array) (grads : list (option array))
    (opt : unit) : list array * unit := (params, opt).

(** What [nnp_linear] returns on the two sub-batches of [three_states] when
    there are two replicas. *)
Definition two_batches (irepl : nat) : list dual :=
  match irepl with
  | O => [mkDual (Finite 1) true (fun _ _ => Finite 1)]
  | _ => [mkDual (Finite 2) true (fun _ _ => Finite 2)]
  end.

(** ** Further methods of the estimator *)

(** [get_native_U]: the ground truth becomes a batch of one state
    ([unsqueeze(0)]) for [_extEpot]. *)
Definition get_native_U
    (nnp : list array -> list Z -> list position -> list nat
           -> result (list dual))
    (opt_state : Type) (replicas : nat) (self : WeightedEnsemble opt_state)
    (ground_truths : state) (embeddings : list embedding)
  : result (list dual * list dual) :=
  _extEpot nnp replicas self [ground_truths] embeddings "val"%string.

(** [key in d] *)
Fixpoint dict_mem (d : dict) (key : string) : bool :=
  match d with
  | [] => false
  | (k, _) :: d' => if String.eqb k key then true else dict_mem d' key
  end.

(** The mean of real numbers. *)
Definition Rmean (l : list R) : R := Rsum l / INR (length l).

(** The energies [nnp_linear] gives to [outlier_states]. *)
Definition outlier_energies : list dual :=
  map (fun x => mkDual (Finite x) true (fun _ _ => Finite x))
      [1; 2; 3; 20000000].


(** One parameter of two elements with the gradient [6000, 8000], of norm
    10000, and the seeded history. *)
Definition one_param_large_grad : WeightedEnsemble unit :=
  mkWE [[Finite 1; Finite 1]] [Some [Finite 6000; Finite 8000]] tt
       [Finite 3000].

(** ** The learner ([torchmdexp/learner.py])

    The part of [Learner] that keeps the statistics of an epoch.  The update
    worker is a collaborator: its [step] returns the dictionary [info] of
    floats, and it knows the learning rate.  Writing the log rows and saving
    the model are not modelled. *)

Inductive exception : Type :=
| KeyError (key : string)
| StatisticsError
| ListIndexError.

Inductive outcome (A : Type) : Type :=
| Returned (a : A)
| Raised (e : exception).

Arguments Returned {A} a.
Arguments Raised {A} e.

(** [statistics.mean] *)
Definition mean (l : list scalar) : outcome scalar :=
  match l with
  | [] => Raised StatisticsError
  | _ => Returned (fmean l)
  end.

(** [info[key]] on the dictionary of floats that the worker returns. *)
Fixpoint info_get (info : list (string * scalar)) (key : string)
  : outcome scalar :=
  match info with
  | [] => Raised (KeyError key)
  | (k, v) :: info' => if String.eqb k key then Returned v else info_get info' key
  end.

(** [key in self.keys] *)
Definition in_keys (key : string) (keys : list string) : bool :=
  existsb (String.eqb key) keys.

Record Learner : Type := mkLearner {
  l_steps : Z;
  l_output_period : Z;
  l_timestep : scalar;
  l_keys : list string;
  train_losses : list scalar;
  train_avg_metrics : list scalar;
  val_losses : list scalar;
  val_avg_metrics : list scalar;
  train_loss : option scalar;
  val_loss : option scalar;
  train_avg_metric : option scalar;
  val_avg_metric : option scalar;
  l_level : Z;
  l_epoch : Z;
  results_dict : dict
}.

Section LearnerMethods.

(** [self.update_worker.step(steps, output_period, val)] and the learning
    rate of the optimizer. *)
Variable worker_step : Z -> Z -> pyval -> list (string * scalar).
Variable current_lr : scalar.

(** [Learner.step], up to the row written to the step log; the instance is
    returned as the exception, if any, leaves it. *)
Definition learner_step (self : Learner) (val_flag : pyval)
  : outcome unit * Learner :=
  let info := worker_step (l_steps self) (l_output_period self) val_flag in
  if py_eq val_flag (PyBool true) then
    match info_get info "val_loss" with
    | Raised e => (Raised e, self)
    | Returned x =>
        let self :=
          mkLearner (l_steps self) (l_output_period self) (l_timestep self)
            (l_keys self) (train_losses self) (train_avg_metrics self)
            (val_losses self ++ [x]) (val_avg_metrics self)
            (train_loss self) (val_loss self) (train_avg_metric self)
            (val_avg_metric self) (l_level self) (l_epoch self)
            (results_dict self) in
        match info_get info "val_avg_metric" with
        | Raised e => (Raised e, self)
        | Returned y =>
            (Returned tt,
             mkLearner (l_steps self) (l_output_period self) (l_timestep self)
               (l_keys self) (train_losses self) (train_avg_metrics self)
               (val_losses self) (val_avg_metrics self ++ [y])
               (train_loss self) (val_loss self) (train_avg_metric self)
               (val_avg_metric self) (l_level self) (l_epoch self)
               (results_dict self))
        end
    end
  else
    match info_get info "train_loss" with
    | Raised e => (Raised e, self)
    | Returned x =>
        let self :=
          mkLearner (l_steps self) (l_output_period self) (l_timestep self)
            (l_keys self) (train_losses self ++ [x]) (train_avg_metrics self)
            (val_losses self) (val_avg_metrics self)
            (train_loss self) (val_loss self) (train_avg_metric self)
            (val_avg_metric self) (l_level self) (l_epoch self)
            (results_dict self) in
        match info_get info "train_avg_metric" with
        | Raised e => (Raised e, self)
        | Returned y =>
            (Returned tt,
             mkLearner (l_steps self) (l_output_period self) (l_timestep self)
               (l_keys self) (train_losses self) (train_avg_metrics self ++ [y])
               (val_losses self) (val_avg_metrics self)
               (train_loss self) (val_loss self) (train_avg_metric self)
               (val_avg_metric self) (l_level self) (l_epoch self)
               (results_dict self))
        end
    end.

(** The validation part of [compute_epoch_stats], lines 150-157: the new
    [val_loss], [val_avg_metric] and [results_dict]. *)
Definition epoch_val_stats (self : Learner) (d : dict)
  : outcome (option scalar * option scalar * dict) :=
  if in_keys "val_loss" (l_keys self) then
    match val_losses self with
    | [] => Returned (val_loss self, val_avg_metric self,
                      dict_set d "val_loss" PyNone)
    | _ =>
        match mean (val_losses self) with
        | Raised e => Raised e
        | Returned vl =>
            match mean (val_avg_metrics self) with
            | Raised e => Raised e
            | Returned vm =>
                Returned (Some vl, Some vm,
                          dict_set (dict_set d "val_loss" (PyFloat vl))
                                   "val_avg_metric" (PyFloat vm))
            end
        end
    end
  else Returned (val_loss self, val_avg_metric self, d).

(** [Learner.compute_epoch_stats]; an exception of the first two means
    leaves what was assigned before it. *)
Definition compute_epoch_stats (self : Learner) : outcome unit * Learner :=
  match mean (train_losses self) with
  | Raised e => (Raised e, self)
  | Returned tl =>
      match mean (train_avg_metrics self) with
      | Raised e =>
          (Raised e,
           mkLearner (l_steps self) (l_output_period self) (l_timestep self)
             (l_keys self) (train_losses self) (train_avg_metrics self)
             (val_losses self) (val_avg_metrics self)
             (Some tl) (val_loss self) (train_avg_metric self)
             (val_avg_metric self) (l_level self) (l_epoch self)
             (results_dict self))
      | Returned tm =>
          let d := dict_set (results_dict self) "train_loss" (PyFloat tl) in
          let d := dict_set d "train_avg_metric" (PyFloat tm) in
          let d := dict_set d "lr" (PyFloat current_lr) in
          let d := dict_set d "timestep" (PyFloat (l_timestep self)) in
          let epoch := (l_epoch self + 1)%Z in
          let d := dict_set d "epoch" (PyInt epoch) in
          let d := if in_keys "level" (l_keys self)
                   then dict_set d "level" (PyInt (l_level self)) else d in
          let d := if in_keys "steps" (l_keys self)
                   then dict_set d "steps" (PyInt (l_steps self)) else d in
          match epoch_val_stats self d with
          | Raised e =>
              (Raised e,
               mkLearner (l_steps self) (l_output_period self)
                 (l_timestep self) (l_keys self) (train_losses self)
                 (train_avg_metrics self) (val_losses self)
                 (val_avg_metrics self) (Some tl)
                 (match mean (val_losses self) with
                  | Returned vl => Some vl
                  | Raised _ => val_loss self
                  end)
                 (Some tm) (val_avg_metric self) (l_level self) epoch d)
          | Returned (vl, vm, d) =>
              (Returned tt,
               mkLearner (l_steps self) (l_output_period self)
                 (l_timestep self) (l_keys self) [] [] [] []
                 (Some tl) vl (Some tm) vm (l_level self) epoch d)
          end
      end
  end.

(** [Learner.get_batch_avg_metric] *)
Definition get_batch_avg_metric (self : Learner) (val_flag : pyval)
  : outcome scalar :=
  let l := if py_eq val_flag (PyBool false) then train_avg_metrics self
           else val_avg_metrics self in
  match rev l with
  | [] => Raised ListIndexError
  | x :: _ => Returned x
  end.

(** [Learner.get_val_loss] *)
Definition get_val_loss (self : Learner) : option scalar := val_loss self.

End LearnerMethods.

(** The lists of an epoch are filled in pairs. *)
Definition paired (self : Learner) : Prop :=
  length (train_losses self) = length (train_avg_metrics self)
  /\ length (val_losses self) = length (val_avg_metrics self).

(** A learner in its second epoch, after one train step and no validation
    step; the first epoch had the validation loss 0.5. *)
Definition learner_example : Learner :=
  mkLearner 100 10 (Finite 1) ["epoch"; "train_loss"; "val_loss"]%string
            [Finite 2] [Finite 3] [] []
            (Some (Finite 4)) (Some (Finite (1 / 2))) (Some (Finite 5)) None
            0 1 [("epoch", PyInt 1); ("train_loss", PyFloat (Finite 4));
                 ("val_loss", PyFloat (Finite (1 / 2)))]%string.

(** A worker whose [step] reports the train keys only. *)
Definition train_worker (steps output_period : Z) (val_flag : pyval)
  : list (string * scalar) :=
  [("train_loss", Finite 2); ("train_avg_metric", Finite 3)]%string.

(** ** Bond parameters ([utils.py])

    A Python dictionary is the list of its items in insertion order, with
    distinct keys.  The parameters of a bond are a dictionary from names
    ([k0], [req]) to numbers; the bonds of a force field are a dictionary
    from bond names to parameters. *)

Definition bond_params : Type := list (string * scalar).
Definition bonds_dict : Type := list (string * bond_params).

(** [d.get(key)] *)
Fixpoint lookup {V : Type} (d : list (string * V)) (key : string) : option V :=
  match d with
  | [] => None
  | (k, v) :: d' => if String.eqb k key then Some v else lookup d' key
  end.

(** [d[key] = v]: in place for a key of [d], at the end for a new one. *)
Fixpoint store {V : Type} (d : list (string * V)) (key : string) (v : V)
  : list (string * V) :=
  match d with
  | [] => [(key, v)]
  | (k, w) :: d' =>
      if String.eqb k key then (k, v) :: d' else (k, w) :: store d' key v
  end.

(** [dict(pairs)] *)
Definition dict_of_pairs {V : Type} (pairs : list (string * V))
  : list (string * V) :=
  fold_left (fun d kv => store d (fst kv) (snd kv)) pairs [].

(** [f'({a}, {b})'] *)
Definition bond_name (a b : string) : string :=
  ("(" ++ a ++ ", " ++ b ++ ")")%string.

Definition get_mol_bonds (atomtype : list string) : list string :=
  map (fun index =>
         bond_name (nth index atomtype ""%string)
                   (nth (index + 1) atomtype ""%string))
      (seq 0 (length atomtype - 1)).

(** The inner loop of [get_bond_params] for one bond, over the keys of the
    force field: the counter [i] and the dictionary built so far. *)
Definition bond_matches (all_bonds_dict : bonds_dict) (bond : string)
    (st : nat * list (nat * bonds_dict)) : nat * list (nat * bonds_dict) :=
  fold_left
    (fun (st : nat * list (nat * bonds_dict)) key =>
       if String.eqb bond key
       then let i := S (fst st) in
            (i, snd st
                ++ [(i, [(key, match lookup all_bonds_dict key with
                               | Some v => v
                               | None => []
                               end)])])
       else st)
    (map fst all_bonds_dict) st.

Definition get_bond_params (all_bonds_dict : bonds_dict)
    (bonds : list string) : list (nat * bonds_dict) :=
  snd (fold_left (fun st bond => bond_matches all_bonds_dict bond st)
                 bonds (O, [])).

(** [extract_bond_params]: the rows of the tensor it returns. *)
Definition extract_bond_params (all_bonds_dict : bonds_dict)
    (atomtype : list string) : list (list scalar) :=
  let bonds := get_mol_bonds atomtype in
  let mol_bonds_dict := get_bond_params all_bonds_dict bonds in
  flat_map (fun entry : nat * bonds_dict =>
              map (fun kv : string * bond_params => map snd (snd kv))
                  (snd entry))
           mol_bonds_dict.

(** [create_bonds_dict], from the atom types of the molecule and the rows of
    [forces.par.bond_params]. *)
Definition create_bonds_dict (atomtype : list string)
    (bond_params_rows : list (list scalar)) : bonds_dict :=
  let bond_names := get_mol_bonds atomtype in
  let params_names := ["k0"; "req"]%string in
  let bond_params_list :=
    map (fun values => dict_of_pairs (combine params_names values))
        bond_params_rows in
  dict_of_pairs (combine bond_names bond_params_list).

(** The inner loop of [insert_bond_params] for one bond of the molecule. *)
Definition insert_bond (mol_bonds_dict : bonds_dict) (bond : string)
    (all_bonds_dict : bonds_dict) : bonds_dict :=
  fold_left
    (fun (d : bonds_dict) key =>
       if String.eqb bond key
       then store d key (match lookup mol_bonds_dict key with
                         | Some v => v
                         | None => []
                         end)
       else d)
    (map fst all_bonds_dict) all_bonds_dict.

Definition insert_bond_params (atomtype : list string)
    (bond_params_rows : list (list scalar)) (all_bonds_dict : bonds_dict)
  : bonds_dict :=
  let mol_bonds_dict := create_bonds_dict atomtype bond_params_rows in
  fold_left (fun d bond => insert_bond mol_bonds_dict bond d)
            (map fst mol_bonds_dict) all_bonds_dict.

(** One bond of [set_ff_bond_parameters]; [*=] reads the entry first and
    raises [KeyError] when it is missing. *)
Definition set_bond (k0 req : scalar) (todo : string) (p : bond_params)
  : outcome bond_params :=
  if String.eqb todo "mult" then
    match lookup p "k0" with
    | None => Raised (KeyError "k0")
    | Some x =>
        let p := store p "k0" (fmul x k0) in
        match lookup p "req" with
        | None => Raised (KeyError "req")
        | Some y => Returned (store p "req" (fmul y req))
        end
    end
  else if String.eqb todo "set" then
    Returned (store (store p "k0" k0) "req" req)
  else Returned p.

(** [set_ff_bond_parameters] on the bonds of the force field; the bonds
    before a [KeyError] stay changed. *)
Fixpoint set_ff_bond_parameters (bonds : bonds_dict) (k0 req : scalar)
    (todo : string) : outcome unit * bonds_dict :=
  match bonds with
  | [] => (Returned tt, [])
  | (key, p) :: bonds' =>
      match set_bond k0 req todo p with
      | Raised e =>
          (Raised e,
           (key, if String.eqb todo "mult"
                 then match lookup p "k0" with
                      | Some x => store p "k0" (fmul x k0)
                      | None => p
                      end
                 else p) :: bonds')
      | Returned p' =>
          let (r, rest) := set_ff_bond_parameters bonds' k0 req todo in
          (r, (key, p') :: rest)
      end
  end.

(** A force field with two bonds and a chain of three atoms, for the
    examples. *)
Definition ff_example : bonds_dict :=
  [("(A, B)", [("k0", Finite 1); ("req", Finite 2)]);
   ("(B, C)", [("k0", Finite 3); ("req", Finite 4)])]%string.

Definition chain_example : list string := ["A"; "B"; "X"]%string.

(** * Properties *)

Unset Implicit Arguments.

(** ** Arithmetic on finite elements *)

Lemma Reqb_refl (x : R) : Reqb x x = true.
Proof. unfold Reqb. destruct (Req_dec_T x x); congruence. Qed.

Lemma Reqb_neq (x y : R) : x <> y -> Reqb x y = false.
Proof. unfold Reqb. destruct (Req_dec_T x y); congruence. Qed.

Lemma Rgtb_true (x y : R) : y < x -> Rgtb x y = true.
Proof. unfold Rgtb. destruct (Rlt_dec y x); tauto. Qed.

Lemma Rgtb_false (x y : R) : x <= y -> Rgtb x y = false.
Proof. unfold Rgtb. destruct (Rlt_dec y x); [lra | reflexivity]. Qed.

Lemma fsub_finite (x y : R) : fsub (Finite x) (Finite y) = Finite (x - y).
Proof. reflexivity. Qed.

Lemma fdiv_finite (x y : R) :
  y <> 0 -> fdiv (Finite x) (Finite y) = Finite (x / y).
Proof. intros Hy. simpl. now rewrite (Reqb_neq _ _ Hy). Qed.

Lemma flog_pos (x : R) : 0 < x -> flog (Finite x) = Finite (ln x).
Proof. intros Hx. simpl. now rewrite (Rgtb_true _ _ Hx). Qed.

Lemma fsqrt_nonneg (x : R) : 0 <= x -> fsqrt (Finite x) = Finite (sqrt x).
Proof. intros Hx. simpl. now rewrite (Rgtb_false _ _ Hx). Qed.

Lemma fsum_finite (rs : list R) : fsum (map Finite rs) = Finite (Rsum rs).
Proof.
  induction rs as [|r rs IH]; [reflexivity|].
  change (fsum (map Finite (r :: rs)))
    with (fadd (Finite r) (fsum (map Finite rs))).
  now rewrite IH.
Qed.

Lemma Rsum_const (c : R) (A : Type) (l : list A) :
  Rsum (map (fun _ => c) l) = INR (length l) * c.
Proof.
  induction l as [|a l IH]; [simpl; lra|].
  change (Rsum (map (fun _ => c) (a :: l))) with (c + Rsum (map (fun _ => c) l)).
  rewrite IH. change (length (a :: l)) with (S (length l)). rewrite S_INR. lra.
Qed.

Lemma Rsum_scale (c : R) (l : list R) :
  Rsum (map (fun x => x * c) l) = Rsum l * c.
Proof. induction l as [|x l IH]; simpl; [lra | rewrite IH; lra]. Qed.

Lemma Rsum_ext_in (A : Type) (f g : A -> R) (l : list A) :
  (forall a, In a l -> f a = g a) -> Rsum (map f l) = Rsum (map g l).
Proof. intros H. now rewrite (map_ext_in f g l H). Qed.

Lemma INR_length_pos (A : Type) (l : list A) : l <> [] -> 0 < INR (length l).
Proof.
  destruct l as [|a l]; [congruence|]. intros _.
  change (length (a :: l)) with (S (length l)). rewrite S_INR.
  pose proof (pos_INR (length l)). lra.
Qed.

(** ** Sums of tensors, component by component *)

Lemma val_dsum (l : list dual) : val (dsum l) = fsum (map val l).
Proof. induction l as [|d l IH]; simpl; [reflexivity | now rewrite IH]. Qed.

Lemma tan_dsum (l : list dual) (k j : nat) :
  tan (dsum l) k j = fsum (map (fun d => tan d k j) l).
Proof. induction l as [|d l IH]; simpl; [reflexivity | now rewrite IH]. Qed.

Lemma requires_grad_dsum (l : list dual) :
  requires_grad (dsum l) = existsb requires_grad l.
Proof. induction l as [|d l IH]; simpl; [reflexivity | now rewrite IH]. Qed.

Lemma map2_map_same (A B C : Type) (f : A -> B -> C) (g : A -> B)
    (l : list A) :
  map2 f l (map g l) = map (fun a => f a (g a)) l.
Proof. induction l as [|a l IH]; simpl; [reflexivity | now rewrite IH]. Qed.

Lemma broadcast2_same_length (f : dual -> dual -> dual) (a b : list dual) :
  length a = length b -> broadcast2 f a b = Ok (map2 f a b).
Proof. intros H. unfold broadcast2. now rewrite H, Nat.eqb_refl. Qed.

(** ** The potential evaluator and the weights *)


Section Estimator.
Variable nnp : list array -> list Z -> list position -> list nat
               -> result (list dual).
Variable opt_state : Type.
Variable T : R.
Variable replicas : nat.
Implicit Type self : WeightedEnsemble opt_state.

Lemma extEpot_loop_detach self states embeddings batch_num ireps :
  forall acc acc_hat E E_hat,
    acc_hat = map detach acc ->
    extEpot_loop nnp self states embeddings batch_num ireps acc acc_hat
      = Ok (E, E_hat) ->
    E_hat = map detach E.
Proof.
  induction ireps as [|irepl ireps IH]; intros acc acc_hat E E_hat Hacc H.
  - simpl in H. injection H as <- <-. exact Hacc.
  - simpl in H. destruct embeddings as [|e0 embs]; [discriminate|].
    match type of H with
    | bind ?m _ = _ => destruct m as [es|err] eqn:Hn
    end; [|discriminate].
    simpl in H. apply IH in H; [exact H|].
    subst acc_hat. now rewrite map_app.
Qed.

Lemma extEpot_detach self states embeddings mode E E_hat :
  _extEpot nnp replicas self states embeddings mode = Ok (E, E_hat) ->
  E_hat = map detach E.
Proof.
  unfold _extEpot. destruct replicas; [discriminate|].
  apply extEpot_loop_detach. reflexivity.
Qed.

Lemma weights_unfold self states embeddings E E_hat :
  _extEpot nnp replicas self states embeddings "train" = Ok (E, E_hat) ->
  _weights nnp T replicas self states embeddings
    = Ok (normalize (map (fun e => log_weight (T * BOLTZMAN) e (detach e)) E),
          E_hat).
Proof.
  intros H. unfold _weights. rewrite H. simpl.
  assert (E_hat = map detach E) as -> by (eapply extEpot_detach; exact H).
  rewrite broadcast2_same_length by now rewrite length_map.
  simpl. rewrite map2_map_same, map_map. reflexivity.
Qed.
End Estimator.

Lemma val_log_weight (c : R) (e : dual) :
  c <> 0 -> is_finite (val e) ->
  val (log_weight c e (detach e)) = Finite 0.
Proof.
  intros Hc [x Hx]. unfold log_weight. simpl. rewrite Hx. simpl.
  rewrite (Reqb_neq _ _ Hc). simpl. f_equal. field. exact Hc.
Qed.

Lemma tan_log_weight (c : R) (e : dual) (k j : nat) :
  c <> 0 -> is_finite (tan e k j) ->
  tan (log_weight c e (detach e)) k j = Finite (- (real_of (tan e k j) / c)).
Proof.
  intros Hc [t Ht]. unfold log_weight. simpl. rewrite Ht. simpl.
  rewrite (Reqb_neq _ _ Hc). simpl. f_equal. field. exact Hc.
Qed.

Lemma requires_grad_log_weight (c : R) (e : dual) :
  requires_grad (log_weight c e (detach e)) = requires_grad e.
Proof. unfold log_weight. simpl. apply orb_false_r. Qed.

(** The normalisation on finite log-weights is the softmax. *)
Lemma val_normalize (U_arg : list dual) (us : list R) :
  map val U_arg = map Finite us -> us <> [] ->
  map val (normalize U_arg)
  = map Finite (map (fun u => exp u / Rsum (map exp us)) us).
Proof.
  intros Hus Hne. unfold normalize.
  assert (HS : val (dsum (map dexp U_arg)) = Finite (Rsum (map exp us))).
  { rewrite val_dsum, map_map.
    change (fun x => val (dexp x)) with (fun x => fexp (val x)).
    rewrite <- (map_map val fexp), Hus, map_map. simpl.
    rewrite <- (map_map exp Finite). apply fsum_finite. }
  assert (Hpos : 0 < Rsum (map exp us)).
  { destruct us as [|u us]; [congruence|]. simpl.
    pose proof (exp_pos u).
    assert (0 <= Rsum (map exp us)).
    { clear. induction us as [|v us IH]; simpl; [lra|].
      pose proof (exp_pos v). lra. }
    lra. }
  rewrite !map_map. simpl. rewrite HS.
  rewrite <- (map_map val (fun v => fdiv (fexp v) (Finite (Rsum (map exp us))))).
  rewrite Hus, map_map. apply map_ext. intros u. simpl.
  rewrite Reqb_neq by lra. reflexivity.
Qed.

Lemma softmax_nonneg (us : list R) (w : R) :
  In w (map (fun u => exp u / Rsum (map exp us)) us) -> 0 < w.
Proof.
  intros Hin. apply in_map_iff in Hin as (u & <- & Hu).
  assert (Hpos : 0 < Rsum (map exp us)).
  { assert (Hge : forall l, 0 <= Rsum (map exp l)).
    { induction l as [|v l IH]; simpl; [lra|]. pose proof (exp_pos v). lra. }
    destruct us as [|u0 us]; [contradiction|]. simpl.
    pose proof (exp_pos u0). pose proof (Hge us). lra. }
  apply Rdiv_lt_0_compat; [apply exp_pos | exact Hpos].
Qed.

Lemma softmax_sum (us : list R) :
  us <> [] -> Rsum (map (fun u => exp u / Rsum (map exp us)) us) = 1.
Proof.
  intros Hne.
  assert (Hpos : 0 < Rsum (map exp us)).
  { assert (Hge : forall l, 0 <= Rsum (map exp l)).
    { induction l as [|v l IH]; simpl; [lra|]. pose proof (exp_pos v). lra. }
    destruct us as [|u0 us]; [congruence|]. simpl.
    pose proof (exp_pos u0). pose proof (Hge us). lra. }
  unfold Rdiv. rewrite <- (map_map exp (fun x => x * / Rsum (map exp us))).
  rewrite Rsum_scale. field. lra.
Qed.

Lemma Forall2_map_r (A B : Type) (P : A -> B -> Prop) (f : A -> B)
    (l : list A) :
  (forall a, In a l -> P a (f a)) -> Forall2 P l (map f l).
Proof.
  induction l as [|a l IH]; intros H; simpl; constructor.
  - apply H. now left.
  - apply IH. intros b Hb. apply H. now right.
Qed.

Lemma existsb_absorb (A : Type) (f : A -> bool) (l : list A) (a : A) :
  In a l -> f a || existsb f l = existsb f l.
Proof.
  intros Hin. destruct (f a) eqn:Hf; [|reflexivity].
  simpl. symmetry. apply existsb_exists. now exists a.
Qed.

Section Uniform.
Variable c : R.
Hypothesis Hc : c <> 0.
Variable E : list dual.
Hypothesis Hfin : Forall (fun e => is_finite (val e)) E.

Lemma val_exp_lw (e : dual) :
  In e E -> val (dexp (log_weight c e (detach e))) = Finite 1.
Proof.
  intros Hin.
  change (val (dexp ?u)) with (fexp (val u)).
  rewrite val_log_weight; [|exact Hc|].
  - simpl. now rewrite exp_0.
  - rewrite Forall_forall in Hfin. now apply Hfin.
Qed.

Lemma val_S :
  val (dsum (map dexp (map (fun e => log_weight c e (detach e)) E)))
  = Finite (INR (length E)).
Proof.
  rewrite val_dsum, !map_map.
  rewrite (map_ext_in _ (fun _ => Finite 1)) by (intros; now apply val_exp_lw).
  rewrite <- (map_map (fun _ => 1) Finite), fsum_finite, Rsum_const.
  f_equal. lra.
Qed.

Lemma tan_exp_lw (k j : nat) (e : dual) :
  In e E -> is_finite (tan e k j) ->
  tan (dexp (log_weight c e (detach e))) k j = Finite (dlog_weight c k j e).
Proof.
  intros Hin Ht.
  change (tan (dexp ?u) k j) with (fmul (val (dexp u)) (tan u k j)).
  rewrite (val_exp_lw e Hin).
  rewrite (tan_log_weight c e k j Hc Ht). simpl. f_equal.
  unfold dlog_weight. lra.
Qed.

Lemma tan_S (k j : nat) :
  Forall (fun e => is_finite (tan e k j)) E ->
  tan (dsum (map dexp (map (fun e => log_weight c e (detach e)) E))) k j
  = Finite (Rsum (map (dlog_weight c k j) E)).
Proof.
  intros Ht. rewrite tan_dsum, !map_map.
  rewrite (map_ext_in _ (fun e => Finite (dlog_weight c k j e))).
  - rewrite <- (map_map (dlog_weight c k j) Finite). apply fsum_finite.
  - intros e He. apply tan_exp_lw; [exact He|].
    rewrite Forall_forall in Ht. now apply Ht.
Qed.

End Uniform.

Lemma requires_grad_sum_exp (c : R) (E : list dual) :
  requires_grad (dsum (map dexp (map (fun e => log_weight c e (detach e)) E)))
  = existsb requires_grad E.
Proof.
  rewrite requires_grad_dsum, map_map.
  induction E as [|e l IH]; simpl; [reflexivity|].
  rewrite orb_false_r. f_equal. exact IH.
Qed.

(** The estimator's weights in terms of the energies: uniform values, and the
    derivative of a softmax at equal arguments. *)
Lemma normalize_log_weights (c : R) (E : list dual) :
  c <> 0 -> Forall (fun e => is_finite (val e)) E ->
  Forall2
    (fun e w =>
       val w = Finite (1 / INR (length E))
       /\ requires_grad w = existsb requires_grad E
       /\ forall k j,
            Forall (fun e' => is_finite (tan e' k j)) E ->
            tan w k j
            = Finite ((dlog_weight c k j e
                       - Rsum (map (dlog_weight c k j) E) / INR (length E))
                      / INR (length E)))
    E (normalize (map (fun e => log_weight c e (detach e)) E)).
Proof.
  intros Hc Hfin. unfold normalize. rewrite !map_map.
  apply Forall2_map_r. intros e He.
  assert (Hn : 0 < INR (length E)).
  { apply INR_length_pos. intros ->. contradiction. }
  rewrite <- (map_map (fun e => log_weight c e (detach e)) dexp).
  split; [|split].
  - change (val (ddiv ?a ?b)) with (fdiv (val a) (val b)).
    rewrite (val_exp_lw c Hc E Hfin e He), (val_S c Hc E Hfin).
    apply fdiv_finite. lra.
  - change (requires_grad (ddiv ?a ?b))
      with (requires_grad a || requires_grad b).
    rewrite requires_grad_sum_exp.
    change (requires_grad (dexp ?a)) with (requires_grad a).
    rewrite requires_grad_log_weight. now apply existsb_absorb.
  - intros k j Ht.
    change (tan (ddiv ?a ?b) k j)
      with (fsub (fdiv (tan a k j) (val b))
                 (fdiv (fmul (val a) (tan b k j)) (fmul (val b) (val b)))).
    rewrite (val_exp_lw c Hc E Hfin e He), (val_S c Hc E Hfin), (tan_S c Hc E Hfin k j Ht).
    rewrite (tan_exp_lw c Hc E Hfin k j e He).
    2:{ rewrite Forall_forall in Ht. now apply Ht. }
    simpl fmul. rewrite !fdiv_finite by nra. rewrite fsub_finite.
    f_equal. field. lra.
Qed.

Section Weights.
Variable nnp : list array -> list Z -> list position -> list nat
               -> result (list dual).
Variable opt_state : Type.
Variable T : R.
Variable replicas : nat.
Implicit Type self : WeightedEnsemble opt_state.

(** C1. When the potential has returned one finite energy per state
    ([U_ext], as many as there are [states], with their detached copy
    [U_ext_hat]) and the temperature is not zero: the detached energies have
    the values of the energies; the estimator's weights are the normalisation
    of the log-weights [u_i = -(U_ext_i - U_ext_hat_i) / (T * BOLTZMAN)],
    each of value zero; there is one weight per state and every weight has
    the value [1 / n_states]; and the weights carry gradient: a weight
    requires grad as soon as one energy does, and its derivative with respect
    to a parameter is the softmax derivative [(u'_i - mean u') / n_states],
    where [u'_i = - U_ext_i' / (T * BOLTZMAN)]. *)
Theorem weights_uniform_and_gradient_bearing self states embeddings
    U_ext U_ext_hat :
  T * BOLTZMAN <> 0 ->
  _extEpot nnp replicas self states embeddings "train"
    = Ok (U_ext, U_ext_hat) ->
  length U_ext = length states ->
  Forall (fun e => is_finite (val e)) U_ext ->
  map val U_ext_hat = map val U_ext
  /\ Forall (fun u => val u = Finite 0)
            (map2 (log_weight (T * BOLTZMAN)) U_ext U_ext_hat)
  /\ exists weights,
       _weights nnp T replicas self states embeddings
         = Ok (weights, U_ext_hat)
       /\ weights
          = normalize (map2 (log_weight (T * BOLTZMAN)) U_ext U_ext_hat)
       /\ length weights = length states
       /\ Forall2
            (fun e w =>
               val w = Finite (1 / INR (length states))
               /\ requires_grad w = existsb requires_grad U_ext
               /\ forall k j,
                    Forall (fun e' => is_finite (tan e' k j)) U_ext ->
                    tan w k j
                    = Finite
                        ((dlog_weight (T * BOLTZMAN) k j e
                          - Rsum (map (dlog_weight (T * BOLTZMAN) k j) U_ext)
                            / INR (length states))
                         / INR (length states)))
            U_ext weights.
Proof.
  intros Hc Hext Hlen Hfin.
  assert (Hhat : U_ext_hat = map detach U_ext)
    by (eapply extEpot_detach; exact Hext).
  subst U_ext_hat. rewrite map2_map_same.
  split; [|split].
  - rewrite map_map. reflexivity.
  - apply Forall_forall. intros u Hu.
    apply in_map_iff in Hu as (e & <- & He).
    apply val_log_weight; [exact Hc|].
    rewrite Forall_forall in Hfin. now apply Hfin.
  - pose proof (normalize_log_weights (T * BOLTZMAN) U_ext Hc Hfin) as Hall.
    eexists. split; [|split; [|split]].
    + apply weights_unfold. exact Hext.
    + reflexivity.
    + rewrite <- Hlen. symmetry. exact (Forall2_length Hall).
    + rewrite <- Hlen. exact Hall.
Qed.
End Weights.

Lemma four_energies_finite : Forall (fun e => is_finite (val e)) four_energies.
Proof. repeat constructor; eexists; reflexivity. Qed.

Lemma extEpot_four_states :
  _extEpot nnp_linear 1 fresh_instance four_states one_embedding "train"
  = Ok (four_energies, map detach four_energies).
Proof. reflexivity. Qed.

Lemma weights_uniform_and_gradient_bearing_witness :
  350 * BOLTZMAN <> 0
  /\ length four_energies = length four_states
  /\ exists weights,
       _weights nnp_linear 350 1 fresh_instance four_states one_embedding
         = Ok (weights, map detach four_energies)
       /\ length weights = 4%nat
       /\ Forall2 (fun e w => val w = Finite (1 / INR 4)
                              /\ requires_grad w = true) four_energies weights.
Proof.
  assert (Hc : 350 * BOLTZMAN <> 0) by (unfold BOLTZMAN; lra).
  split; [exact Hc|]. split; [reflexivity|].
  destruct (weights_uniform_and_gradient_bearing nnp_linear unit 350 1
              fresh_instance four_states one_embedding
              four_energies (map detach four_energies)
              Hc extEpot_four_states eq_refl four_energies_finite)
    as (_ & _ & weights & Hw & _ & Hlen & Hall).
  exists weights. split; [exact Hw|]. split; [exact Hlen|].
  clear Hw Hlen. induction Hall as [|e w l l' (Hv & Hg & _) _ IH];
    constructor; [split|]; assumption.
Defined.

Section Normalisation.
Variable nnp : list array -> list Z -> list position -> list nat
               -> result (list dual).
Variable opt_state : Type.
Variable T : R.
Variable replicas : nat.
Implicit Type self : WeightedEnsemble opt_state.

(** C2. For at least one state, finite energies and a temperature that is
    not zero, the weight vector the estimator returns consists of real
    numbers [w_i = exp(u_i) / sum_j exp(u_j)] that are nonnegative
    and sum to 1. *)
Theorem weights_nonneg_sum_one self states embeddings U_ext U_ext_hat :
  T * BOLTZMAN <> 0 ->
  _extEpot nnp replicas self states embeddings "train"
    = Ok (U_ext, U_ext_hat) ->
  Forall (fun e => is_finite (val e)) U_ext ->
  U_ext <> [] ->
  exists weights us,
    _weights nnp T replicas self states embeddings = Ok (weights, U_ext_hat)
    /\ map val (map2 (log_weight (T * BOLTZMAN)) U_ext U_ext_hat)
       = map Finite us
    /\ map val weights
       = map Finite (map (fun u => exp u / Rsum (map exp us)) us)
    /\ Forall (fun w => 0 <= w) (map (fun u => exp u / Rsum (map exp us)) us)
    /\ Rsum (map (fun u => exp u / Rsum (map exp us)) us) = 1.
Proof.
  intros Hc Hext Hfin Hne.
  assert (Hhat : U_ext_hat = map detach U_ext)
    by (eapply extEpot_detach; exact Hext).
  exists (normalize (map (fun e => log_weight (T * BOLTZMAN) e (detach e)) U_ext)).
  exists (map (fun _ => 0) U_ext).
  assert (Hus : map val (map (fun e => log_weight (T * BOLTZMAN) e (detach e)) U_ext)
                = map Finite (map (fun _ : dual => 0) U_ext)).
  { rewrite !map_map. apply map_ext_in. intros e He.
    apply val_log_weight; [exact Hc|].
    rewrite Forall_forall in Hfin. now apply Hfin. }
  assert (Hne' : map (fun _ : dual => 0) U_ext <> []).
  { destruct U_ext; [congruence | discriminate]. }
  split; [|split; [|split; [|split]]].
  - apply weights_unfold. exact Hext.
  - subst U_ext_hat. rewrite map2_map_same. exact Hus.
  - apply val_normalize; assumption.
  - apply Forall_forall. intros w Hw. apply Rlt_le.
    eapply softmax_nonneg. exact Hw.
  - apply softmax_sum. exact Hne'.
Qed.
End Normalisation.

Lemma weights_nonneg_sum_one_witness :
  four_energies <> []
  /\ exists weights ws,
       _weights nnp_linear 350 1 fresh_instance four_states one_embedding
         = Ok (weights, map detach four_energies)
       /\ map val weights = map Finite ws
       /\ Forall (fun w => 0 <= w) ws
       /\ Rsum ws = 1.
Proof.
  assert (Hc : 350 * BOLTZMAN <> 0) by (unfold BOLTZMAN; lra).
  assert (Hne : four_energies <> []) by discriminate.
  split; [exact Hne|].
  destruct (weights_nonneg_sum_one nnp_linear unit 350 1
              fresh_instance four_states one_embedding
              four_energies (map detach four_energies)
              Hc extEpot_four_states four_energies_finite Hne)
    as (weights & us & Hw & _ & Hv & Hpos & Hsum).
  exists weights, (map (fun u => exp u / Rsum (map exp us)) us).
  repeat split; assumption.
Defined.

(** ** The effective sample size *)

Lemma exp_le (x y : R) : x <= y -> exp x <= exp y.
Proof.
  intros [Hlt | ->]; [|lra]. apply Rlt_le. now apply exp_increasing.
Qed.

Lemma ln_le_minus_1 (x : R) : 0 < x -> ln x <= x - 1.
Proof.
  intros Hx. pose proof (exp_ineq1_le (ln x)) as H.
  rewrite (exp_ln x Hx) in H. lra.
Qed.

Lemma Rsum_nonneg_le (ws : list R) (w : R) :
  Forall (fun x => 0 < x) ws -> In w ws -> w <= Rsum ws.
Proof.
  intros Hpos. induction Hpos as [|x l Hx Hl IH]; intros Hin; [contradiction|].
  assert (Hge : 0 <= Rsum l).
  { clear - Hl. induction Hl as [|y l Hy _ IH]; simpl; lra. }
  simpl. destruct Hin as [-> | Hin]; [lra|]. specialize (IH Hin). lra.
Qed.

(** Value, flag and derivative of what [_effectiven] returns. *)
Lemma effectiven_returns (weights : list dual) :
  exists neff,
    _effectiven weights = Ok neff
    /\ val neff
       = fexp (fneg (fsum (map (fun w => fmul (val w) (flog (val w))) weights)))
    /\ requires_grad neff = false
    /\ forall k j, tan neff k j = Finite 0.
Proof.
  unfold _effectiven.
  rewrite broadcast2_same_length by now rewrite length_map.
  simpl. eexists. split; [reflexivity|]. simpl.
  rewrite val_dsum, map2_map_same, map_map. auto.
Qed.

(** On strictly positive weights the value is the exponential of the entropy. *)
Lemma effectiven_positive (weights : list dual) (ws : list R) :
  map val weights = map Finite ws ->
  Forall (fun w => 0 < w) ws ->
  fexp (fneg (fsum (map (fun w => fmul (val w) (flog (val w))) weights)))
  = Finite (exp (- plogp_sum ws)).
Proof.
  intros Hv Hpos.
  rewrite <- (map_map val (fun v => fmul v (flog v))), Hv, map_map.
  rewrite (map_ext_in _ (fun w => Finite (w * ln w))).
  - rewrite <- (map_map (fun w => w * ln w) Finite), fsum_finite. reflexivity.
  - intros w Hw. rewrite Forall_forall in Hpos.
    rewrite (flog_pos w (Hpos w Hw)). reflexivity.
Qed.

Lemma plogp_sum_nonpos (ws : list R) :
  Forall (fun w => 0 < w) ws -> Rsum ws = 1 -> plogp_sum ws <= 0.
Proof.
  intros Hpos Hsum.
  assert (Hle : forall w, In w ws -> w * ln w <= 0).
  { intros w Hw. pose proof (Rsum_nonneg_le ws w Hpos Hw) as H1.
    rewrite Forall_forall in Hpos. pose proof (Hpos w Hw) as H0.
    pose proof (ln_le_minus_1 w H0). nra. }
  unfold plogp_sum. clear Hpos Hsum.
  induction ws as [|w l IH]; simpl; [lra|].
  assert (w * ln w <= 0) by (apply Hle; now left).
  assert (Rsum (map (fun w0 => w0 * ln w0) l) <= 0)
    by (apply IH; intros; apply Hle; now right).
  lra.
Qed.

(** Gibbs' inequality, summed term by term with [ln x <= x - 1]. *)
Lemma plogp_sum_lower (N : R) (ws : list R) :
  0 < N -> Forall (fun w => 0 < w) ws ->
  - plogp_sum ws - Rsum ws * ln N <= INR (length ws) / N - Rsum ws.
Proof.
  intros HN Hpos. unfold plogp_sum.
  induction Hpos as [|w l Hw _ IH].
  - simpl. lra.
  - change (length (w :: l)) with (S (length l)). rewrite S_INR. simpl.
    assert (Hterm : - (w * ln w) - w * ln N <= 1 / N - w).
    { assert (HNw : 0 < / (N * w))
        by (apply Rinv_0_lt_compat; nra).
      pose proof (ln_le_minus_1 (/ (N * w)) HNw) as H.
      rewrite ln_Rinv in H by nra. rewrite ln_mult in H by assumption.
      assert (Heq : w * (/ (N * w) - 1) = 1 / N - w) by (field; lra).
      nra. }
    unfold Rdiv in *. lra.
Qed.

Lemma plogp_sum_uniform (ws : list R) :
  ws <> [] ->
  (forall w, In w ws -> w = 1 / INR (length ws)) ->
  plogp_sum ws = - ln (INR (length ws)).
Proof.
  intros Hne Hu. pose proof (INR_length_pos _ ws Hne) as Hn.
  unfold plogp_sum.
  rewrite (Rsum_ext_in _ _ (fun _ => 1 / INR (length ws) * ln (1 / INR (length ws)))).
  - rewrite Rsum_const. unfold Rdiv. rewrite Rmult_1_l, ln_Rinv by assumption.
    field. lra.
  - intros w Hw. now rewrite (Hu w Hw).
Qed.

(** C8, as the code has it.  For weights that are strictly positive and sum
    to 1 over [n] states, [_effectiven] returns a detached scalar (it does not
    require grad and has no derivative) whose value
    [exp(- sum_i w_i * ln(w_i))] lies between 1 and [n]; it is [n] for uniform
    weights and 1 for a single state. *)
Theorem effectiven_between_one_and_n (weights : list dual) (ws : list R) :
  map val weights = map Finite ws ->
  Forall (fun w => 0 < w) ws ->
  Rsum ws = 1 ->
  exists neff x,
    _effectiven weights = Ok neff
    /\ requires_grad neff = false
    /\ (forall k j, tan neff k j = Finite 0)
    /\ val neff = Finite x
    /\ x = exp (- plogp_sum ws)
    /\ 1 <= x <= INR (length ws)
    /\ ((forall w, In w ws -> w = 1 / INR (length ws)) -> x = INR (length ws))
    /\ (length ws = 1%nat -> x = 1).
Proof.
  intros Hv Hpos Hsum.
  destruct (effectiven_returns weights) as (neff & Hok & Hval & Hrg & Htan).
  rewrite (effectiven_positive weights ws Hv Hpos) in Hval.
  assert (Hne : ws <> []) by (intros ->; simpl in Hsum; lra).
  pose proof (INR_length_pos _ ws Hne) as Hn.
  assert (Hlo : 1 <= exp (- plogp_sum ws)).
  { rewrite <- exp_0. apply exp_le.
    pose proof (plogp_sum_nonpos ws Hpos Hsum). lra. }
  assert (Hhi : exp (- plogp_sum ws) <= INR (length ws)).
  { apply Rle_trans with (exp (ln (INR (length ws))));
      [|rewrite exp_ln by assumption; lra].
    apply exp_le.
    pose proof (plogp_sum_lower (INR (length ws)) ws Hn Hpos) as H.
    rewrite Hsum in H. unfold Rdiv in H. rewrite Rinv_r in H by lra. lra. }
  exists neff, (exp (- plogp_sum ws)).
  repeat split; try assumption.
  - intros Hu. rewrite (plogp_sum_uniform ws Hne Hu), Ropp_involutive.
    now apply exp_ln.
  - intros H1. rewrite H1 in Hhi. simpl in Hhi. lra.
Qed.

Lemma effectiven_between_one_and_n_witness :
  exists neff,
    _effectiven [dconst (Finite (1 / 2)); dconst (Finite (1 / 2))] = Ok neff
    /\ val neff = Finite (INR 2).
Proof.
  destruct (effectiven_between_one_and_n
              [dconst (Finite (1 / 2)); dconst (Finite (1 / 2))]
              [1 / 2; 1 / 2] eq_refl)
    as (neff & x & Hok & _ & _ & Hval & _ & _ & Hu & _).
  - repeat constructor; lra.
  - simpl. lra.
  - exists neff. split; [exact Hok|]. rewrite Hval. f_equal.
    apply Hu. simpl. intros w [<- | [<- | []]]; lra.
Defined.

(** C8, as stated, fails when a weight is exactly zero: all the weight on the
    first of two states gives [0 * log 0 = 0 * -inf = nan], not 1. *)
Lemma effectiven_one_hot_is_nan :
  Forall (fun w => 0 <= w) [1; 0]
  /\ Rsum [1; 0] = 1
  /\ exists neff,
       _effectiven [dconst (Finite 1); dconst (Finite 0)] = Ok neff
       /\ val neff = NaN
       /\ val neff <> Finite 1.
Proof.
  split; [repeat constructor; lra|]. split; [simpl; lra|].
  destruct (effectiven_returns [dconst (Finite 1); dconst (Finite 0)])
    as (neff & Hok & Hval & _).
  exists neff. split; [exact Hok|].
  assert (H : val neff = NaN).
  { rewrite Hval. simpl.
    rewrite (Rgtb_true 1 0) by lra.
    rewrite (Rgtb_false 0 0) by lra. rewrite Reqb_refl. reflexivity. }
  split; [exact H|]. rewrite H. discriminate.
Qed.

(** ** Weights and effective sample size of the estimator together *)

Lemma effectiven_uniform (weights : list dual) :
  weights <> [] ->
  Forall (fun w => val w = Finite (1 / INR (length weights))) weights ->
  exists neff,
    _effectiven weights = Ok neff
    /\ val neff = Finite (INR (length weights)).
Proof.
  intros Hne Hu. pose proof (INR_length_pos _ weights Hne) as Hn.
  destruct (effectiven_returns weights) as (neff & Hok & Hval & _).
  exists neff. split; [exact Hok|].
  set (ws := map (fun _ : dual => 1 / INR (length weights)) weights).
  assert (Hlen : length ws = length weights) by apply length_map.
  assert (Hv : map val weights = map Finite ws).
  { unfold ws. rewrite map_map. apply map_ext_in. intros w Hw.
    rewrite Forall_forall in Hu. now apply Hu. }
  assert (Hpos : Forall (fun w => 0 < w) ws).
  { apply Forall_forall. intros w Hw. unfold ws in Hw.
    apply in_map_iff in Hw as (_ & <- & _).
    apply Rdiv_lt_0_compat; lra. }
  rewrite (effectiven_positive weights ws Hv Hpos) in Hval.
  rewrite Hval. f_equal.
  rewrite plogp_sum_uniform.
  - rewrite Ropp_involutive, Hlen. now apply exp_ln.
  - intros Hws. apply Hne. destruct weights; [reflexivity | discriminate].
  - intros w Hw. unfold ws in Hw. apply in_map_iff in Hw as (_ & <- & _).
    now rewrite Hlen.
Qed.

Lemma Forall2_right (A B : Type) (P : A -> B -> Prop) (Q : B -> Prop)
    (l : list A) (l' : list B) :
  (forall a b, P a b -> Q b) -> Forall2 P l l' ->
  Forall Q l' /\ length l' = length l.
Proof.
  intros HPQ H. induction H as [|a b l l' Hab _ [IH1 IH2]]; simpl.
  - split; [constructor | reflexivity].
  - split; [constructor; [now apply (HPQ a) | exact IH1] | now rewrite IH2].
Qed.

Section Degeneracy.
Variable nnp : list array -> list Z -> list position -> list nat
               -> result (list dual).
Variable opt_state : Type.
Variable T : R.
Variable replicas : nat.
Implicit Type self : WeightedEnsemble opt_state.

Lemma weights_uniform_values self states embeddings U_ext U_ext_hat :
  T * BOLTZMAN <> 0 ->
  _extEpot nnp replicas self states embeddings "train"
    = Ok (U_ext, U_ext_hat) ->
  Forall (fun e => is_finite (val e)) U_ext ->
  exists weights,
    _weights nnp T replicas self states embeddings = Ok (weights, U_ext_hat)
    /\ length weights = length U_ext
    /\ Forall (fun w => val w = Finite (1 / INR (length U_ext))) weights.
Proof.
  intros Hc Hext Hfin.
  pose proof (weights_unfold nnp opt_state T replicas self states embeddings
                U_ext U_ext_hat Hext) as Hw.
  pose proof (normalize_log_weights (T * BOLTZMAN) U_ext Hc Hfin) as H2.
  apply (Forall2_right _ _ _
           (fun w => val w = Finite (1 / INR (length U_ext)))) in H2;
    [|tauto].
  destruct H2 as [Hall Hlen].
  eexists. split; [exact Hw|]. split; assumption.
Qed.

(** C4, as the code has it.  Whatever the finite energies of the [n >= 1]
    states are (one energy per state), and so however low one of them is
    driven, there are [n] weights, every weight has the value [1 / n] and
    the effective sample size is [n], where [n] is the number of states. *)
Theorem weights_and_neff_ignore_energy_values self states embeddings
    U_ext U_ext_hat :
  T * BOLTZMAN <> 0 ->
  _extEpot nnp replicas self states embeddings "train"
    = Ok (U_ext, U_ext_hat) ->
  length U_ext = length states ->
  Forall (fun e => is_finite (val e)) U_ext ->
  states <> [] ->
  exists weights neff,
    _weights nnp T replicas self states embeddings = Ok (weights, U_ext_hat)
    /\ length weights = length states
    /\ Forall (fun w => val w = Finite (1 / INR (length states))) weights
    /\ _effectiven weights = Ok neff
    /\ val neff = Finite (INR (length states)).
Proof.
  intros Hc Hext Hn Hfin Hne.
  rewrite <- Hn.
  assert (Hne' : U_ext <> []).
  { intros H0. rewrite H0 in Hn. destruct states; [congruence|discriminate]. }
  clear Hne Hn. rename Hne' into Hne.
  destruct (weights_uniform_values self states embeddings U_ext U_ext_hat
              Hc Hext Hfin) as (weights & Hw & Hlen & Hall).
  assert (Hwne : weights <> []).
  { intros H0. rewrite H0 in Hlen. destruct U_ext; [congruence|discriminate]. }
  rewrite <- Hlen in Hall.
  destruct (effectiven_uniform weights Hwne Hall) as (neff & Hok & Hval).
  rewrite Hlen in Hall, Hval.
  exists weights, neff. repeat split; assumption.
Qed.
End Degeneracy.

Lemma weights_and_neff_ignore_energy_values_witness :
  exists weights neff,
    _weights nnp_linear 350 1 fresh_instance four_states one_embedding
      = Ok (weights, map detach four_energies)
    /\ _effectiven weights = Ok neff
    /\ val neff = Finite (INR 4).
Proof.
  destruct (weights_and_neff_ignore_energy_values nnp_linear unit 350 1
              fresh_instance four_states one_embedding
              four_energies (map detach four_energies))
    as (weights & neff & Hw & _ & _ & Hok & Hval).
  - unfold BOLTZMAN. lra.
  - reflexivity.
  - reflexivity.
  - repeat constructor; eexists; reflexivity.
  - discriminate.
  - exists weights, neff. repeat split; assumption.
Defined.

(** C4, as stated, fails on its own scenario: energies [0, 0, 0, 100000] at
    [T = 350] give the fourth state the weight 1/4 (not about 0) and the
    effective sample size 4 (not about 3). *)
Lemma fourth_state_keeps_quarter_weight :
  exists weights neff w4 n_eff,
    _weights nnp_linear 350 1 fresh_instance four_states one_embedding
      = Ok (weights, map detach four_energies)
    /\ _effectiven weights = Ok neff
    /\ val (nth 3 weights (dconst NaN)) = Finite w4
    /\ val neff = Finite n_eff
    /\ w4 - 0 = 1 / 4
    /\ n_eff - 3 = 1.
Proof.
  destruct (weights_uniform_values nnp_linear unit 350 1
              fresh_instance four_states one_embedding
              four_energies (map detach four_energies))
    as (weights & Hw & Hlen & Hall).
  - unfold BOLTZMAN. lra.
  - reflexivity.
  - exact four_energies_finite.
  - assert (Hwne : weights <> []) by (intros ->; discriminate).
    rewrite <- Hlen in Hall.
    destruct (effectiven_uniform weights Hwne Hall) as (neff & Hok & Hval).
    rewrite Hlen in Hall, Hval.
    exists weights, neff, (1 / 4), 4.
    repeat split; try assumption; try lra.
    + rewrite Forall_forall in Hall.
      rewrite (Hall (nth 3 weights (dconst NaN))).
      * f_equal. simpl. lra.
      * apply nth_In. rewrite Hlen. simpl. lia.
    + rewrite Hval. f_equal. simpl. lra.
Qed.

(** ** The potential evaluator and the replica count *)

Lemma length_slice_batch (A : Type) (l : list A) (r i : nat) :
  (i < r)%nat ->
  length (slice l (length l / r * i) (length l / r * (i + 1)))
  = (length l / r)%nat.
Proof.
  intros Hi. unfold slice. rewrite length_firstn, length_skipn.
  assert (Hr : r <> 0%nat) by lia.
  pose proof (Nat.Div0.mul_div_le (length l) r) as Hle.
  set (b := (length l / r)%nat) in *.
  assert (b * (i + 1) <= r * b)%nat by nia.
  nia.
Qed.

Lemma firstn_plus (A : Type) (a b : nat) (l : list A) :
  firstn (a + b) l = firstn a l ++ firstn b (skipn a l).
Proof.
  revert l. induction a as [|a IH]; intros l; [reflexivity|].
  destruct l as [|x l]; simpl.
  - now rewrite firstn_nil.
  - now rewrite IH.
Qed.

(** The sub-batches of the loop, one after the other, are the first
    [r * b] states. *)
Lemma concat_slices (A : Type) (l : list A) (b r : nat) :
  concat (map (fun i => slice l (b * i) (b * (i + 1))) (seq 0 r))
  = firstn (r * b) l.
Proof.
  induction r as [|r IH]; [reflexivity|].
  rewrite seq_S, map_app, concat_app, IH. simpl.
  rewrite app_nil_r. unfold slice.
  replace (b * (r + 1) - b * r)%nat with b by lia.
  replace (b + r * b)%nat with (r * b + b)%nat by lia.
  rewrite firstn_plus. do 3 f_equal. lia.
Qed.

Lemma length_concat_batches (energies_of : nat -> list dual) (b : nat)
    (ireps : list nat) :
  (forall i, In i ireps -> length (energies_of i) = b) ->
  length (concat (map energies_of ireps)) = (length ireps * b)%nat.
Proof.
  induction ireps as [|i ireps IH]; intros H; [reflexivity|].
  simpl. rewrite length_app, (H i (or_introl eq_refl)), IH; [reflexivity|].
  intros j Hj. apply H. now right.
Qed.

Section Replicas.
Variable nnp : list array -> list Z -> list position -> list nat
               -> result (list dual).
Variable opt_state : Type.
Variable replicas : nat.
Implicit Type self : WeightedEnsemble opt_state.

Lemma extEpot_loop_returns self states embeddings_0 embeddings batch_num
    (energies_of : nat -> list dual) ireps :
  (forall irepl, In irepl ireps ->
     potential_on nnp (theta self) embeddings_0
       (slice states (batch_num * irepl) (batch_num * (irepl + 1)))
     = Ok (energies_of irepl)) ->
  forall acc acc_hat,
    extEpot_loop nnp self states (embeddings_0 :: embeddings) batch_num
      ireps acc acc_hat
    = Ok (acc ++ concat (map energies_of ireps),
          acc_hat ++ map detach (concat (map energies_of ireps))).
Proof.
  induction ireps as [|irepl ireps IH]; intros Hnnp acc acc_hat.
  - simpl. now rewrite !app_nil_r.
  - pose proof (Hnnp irepl (or_introl eq_refl)) as Hes.
    cbn [extEpot_loop]. unfold potential_on in Hes. rewrite Hes.
    cbn [bind].
    rewrite (IH (fun i Hi => Hnnp i (or_intror Hi))).
    cbn [map concat]. now rewrite map_app, !app_assoc.
Qed.

(** C7, as the code has it.  With at least one replica, an embedding row,
    and a potential that returns one energy per state of each sub-batch,
    [_extEpot] raises nothing.  With [batch_num = n // replicas], it returns
    the energies of the first [replicas * batch_num] states, sub-batch after
    sub-batch, and their detached copies; these are fewer than the [n] states
    whenever [n] is not a multiple of [replicas]. *)
Theorem extEpot_truncates_to_whole_batches self states embeddings_0
    embeddings mode (energies_of : nat -> list dual) :
  replicas <> 0%nat ->
  (forall irepl, (irepl < replicas)%nat ->
     potential_on nnp (theta self) embeddings_0
       (slice states (length states / replicas * irepl)
                     (length states / replicas * (irepl + 1)))
     = Ok (energies_of irepl)
     /\ length (energies_of irepl) = (length states / replicas)%nat) ->
  _extEpot nnp replicas self states (embeddings_0 :: embeddings) mode
  = Ok (concat (map energies_of (seq 0 replicas)),
        map detach (concat (map energies_of (seq 0 replicas))))
  /\ concat (map (fun irepl =>
                    slice states (length states / replicas * irepl)
                                 (length states / replicas * (irepl + 1)))
                 (seq 0 replicas))
     = firstn (replicas * (length states / replicas)) states
  /\ length (concat (map energies_of (seq 0 replicas)))
     = (replicas * (length states / replicas))%nat
  /\ (length states mod replicas <> 0 ->
      length (concat (map energies_of (seq 0 replicas))) < length states)%nat.
Proof.
  intros Hr Hnnp.
  assert (Hlen : length (concat (map energies_of (seq 0 replicas)))
                 = (replicas * (length states / replicas))%nat).
  { rewrite (length_concat_batches energies_of (length states / replicas)).
    - now rewrite length_seq.
    - intros i Hi. apply in_seq in Hi. apply Hnnp. lia. }
  split; [|split; [|split]].
  - unfold _extEpot. destruct replicas as [|r] eqn:Hrep; [congruence|].
    rewrite <- Hrep in *.
    rewrite (extEpot_loop_returns self states embeddings_0 embeddings
               (length states / replicas) energies_of); [reflexivity|].
    intros irepl Hin. apply in_seq in Hin. apply Hnnp. lia.
  - apply concat_slices.
  - exact Hlen.
  - intros Hmod. rewrite Hlen.
    pose proof (Nat.div_mod_eq (length states) replicas). lia.
Qed.
End Replicas.

Lemma extEpot_truncates_to_whole_batches_witness :
  _extEpot nnp_linear 2 fresh_instance three_states one_embedding "train"
  = Ok (concat (map two_batches (seq 0 2)),
        map detach (concat (map two_batches (seq 0 2))))
  /\ length (concat (map two_batches (seq 0 2))) = 2%nat.
Proof.
  destruct (extEpot_truncates_to_whole_batches nnp_linear unit 2
              fresh_instance three_states [1%Z] [] "train" two_batches)
    as (HE & _ & Hlen & _).
  - discriminate.
  - intros irepl Hi.
    destruct irepl as [|[|irepl]]; [| |lia]; split; reflexivity.
  - split; [exact HE | exact Hlen].
Defined.

(** C7, as stated, fails: three states and two replicas give no error, but
    the energies of the first two states. *)
Lemma extEpot_three_states_two_replicas :
  (3 mod 2 <> 0)%nat
  /\ _extEpot nnp_linear 2 fresh_instance three_states one_embedding "train"
     = Ok ([mkDual (Finite 1) true (fun _ _ => Finite 1);
            mkDual (Finite 2) true (fun _ _ => Finite 2)],
           [detach (mkDual (Finite 1) true (fun _ _ => Finite 1));
            detach (mkDual (Finite 2) true (fun _ _ => Finite 2))]).
Proof. split; [discriminate | reflexivity]. Qed.

(** ** The weighted observable *)

Lemma clamp_obs_finite (o : R) :
  clamp_obs (Finite o) = Finite (Rmin o 10000000).
Proof.
  unfold clamp_obs, fgt, Rgtb, Rmin.
  destruct (Rlt_dec 10000000 o), (Rle_dec o 10000000);
    try reflexivity; exfalso; lra.
Qed.

Lemma val_weighted_sum (weights : list dual) :
  forall (ws os : list R),
    map val weights = map Finite ws ->
    val (dsum (map2 dmul weights
                 (map dconst (map clamp_obs (map Finite os)))))
    = Finite (Rsum (map2 (fun w o => w * Rmin o 10000000) ws os)).
Proof.
  induction weights as [|d weights IH]; intros ws os Hv.
  - destruct ws; [reflexivity | discriminate].
  - destruct ws as [|w ws]; [discriminate|]. injection Hv as Hd Hv.
    destruct os as [|o os]; [reflexivity|].
    cbn [map map2 dsum fold_right].
    change (fold_right dadd (dconst (Finite 0)) ?l) with (dsum l).
    cbn [val dadd dmul dconst]. rewrite (IH ws os Hv), Hd, clamp_obs_finite.
    reflexivity.
Qed.

Lemma requires_grad_weighted_sum (weights : list dual) :
  forall obs : list scalar,
    length obs = length weights ->
    requires_grad (dsum (map2 dmul weights (map dconst obs)))
    = existsb requires_grad weights.
Proof.
  induction weights as [|d weights IH]; intros [|o obs] Hlen;
    try discriminate; [reflexivity|].
  cbn [map map2 dsum fold_right existsb].
  change (fold_right dadd (dconst (Finite 0)) ?l) with (dsum l).
  cbn [requires_grad dadd dmul dconst]. rewrite orb_false_r.
  f_equal. apply IH. now injection Hlen.
Qed.

Lemma map_clamp_agree (f g : state -> scalar) (states : list state) :
  (forall s, In s states ->
     f s = g s
     \/ (fgt (f s) (Finite 10000000) = true
         /\ fgt (g s) (Finite 10000000) = true)) ->
  map clamp_obs (map f states) = map clamp_obs (map g states).
Proof.
  intros H. rewrite !map_map. apply map_ext_in. intros s Hs.
  destruct (H s Hs) as [-> | [Hf Hg]]; [reflexivity|].
  unfold clamp_obs. now rewrite Hf, Hg.
Qed.

Section Observable.
Variable nnp : list array -> list Z -> list position -> list nat
               -> result (list dual).
Variables metric metric' : state -> state -> scalar.
Variable opt_state : Type.
Variable T : R.
Variable replicas : nat.
Implicit Type self : WeightedEnsemble opt_state.

(** C5.  When the estimator has one weight of value [w_i] per state and the
    metric values [obs_i] are finite, [compute_we] returns the weighted
    observable [sum_i w_i * min(obs_i, 1e7)], which carries the gradient of
    the weights only.  And a metric that differs from [metric] only on
    states where both exceed [1e7] gives the same result: above the bound,
    a metric value contributes the bound and nothing else. *)
Theorem compute_we_clamps_metric self states crystal embeddings
    neff_threshold weights U_ext_hat ws os :
  _weights nnp T replicas self states embeddings = Ok (weights, U_ext_hat) ->
  length weights = length states ->
  map val weights = map Finite ws ->
  map (fun state => metric state crystal) states = map Finite os ->
  (exists w_e avg_metric,
     compute_we nnp metric T replicas self states crystal embeddings
                neff_threshold = Ok (w_e, avg_metric)
     /\ val w_e
        = Finite (Rsum (map2 (fun w o => w * Rmin o 10000000) ws os))
     /\ requires_grad w_e = existsb requires_grad weights)
  /\ ((forall s, In s states ->
         metric s crystal = metric' s crystal
         \/ (fgt (metric s crystal) (Finite 10000000) = true
             /\ fgt (metric' s crystal) (Finite 10000000) = true)) ->
      compute_we nnp metric' T replicas self states crystal embeddings
                 neff_threshold
      = compute_we nnp metric T replicas self states crystal embeddings
                   neff_threshold).
Proof.
  intros Hw Hlen Hv Hobs. split.
  - unfold compute_we. rewrite Hw. cbn [bind].
    rewrite broadcast2_same_length
      by (rewrite !length_map; exact Hlen).
    cbn [bind]. eexists. eexists. split; [reflexivity|]. split.
    + rewrite Hobs. apply val_weighted_sum. exact Hv.
    + apply requires_grad_weighted_sum. rewrite !length_map. now symmetry.
  - intros Hagree. unfold compute_we.
    rewrite (map_clamp_agree (fun s => metric s crystal)
               (fun s => metric' s crystal) states Hagree).
    reflexivity.
Qed.

(** C10.  [compute_we] gives the same result for any two values of
    [neff_threshold]; the argument is not used, and neither [compute_we],
    [compute_loss] nor [compute_gradients] calls [_effectiven]. *)
Theorem compute_we_ignores_neff_threshold self states crystal embeddings
    (neff_threshold neff_threshold' : pyval) :
  compute_we nnp metric T replicas self states crystal embeddings
             neff_threshold
  = compute_we nnp metric T replicas self states crystal embeddings
               neff_threshold'.
Proof. reflexivity. Qed.
End Observable.

Lemma map_val_const (c : R) (l : list dual) :
  Forall (fun w => val w = Finite c) l ->
  map val l = map Finite (map (fun _ => c) l).
Proof.
  intros H. rewrite map_map. apply map_ext_in. intros w Hw.
  rewrite Forall_forall in H. now apply H.
Qed.

Lemma compute_we_clamps_metric_witness :
  exists w_e avg_metric,
    compute_we nnp_linear metric_first_x 350 1 fresh_instance outlier_states
               [] one_embedding PyNone = Ok (w_e, avg_metric)
    /\ val w_e = Finite ((1 + 2 + 3 + 10000000) / 4).
Proof.
  destruct (weights_uniform_values nnp_linear unit 350 1
              fresh_instance outlier_states one_embedding
              (map (fun x => mkDual (Finite x) true (fun _ _ => Finite x))
                   [1; 2; 3; 20000000])
              (map detach
                 (map (fun x => mkDual (Finite x) true (fun _ _ => Finite x))
                      [1; 2; 3; 20000000])))
    as (weights & Hw & Hlen & Hall).
  - unfold BOLTZMAN. lra.
  - reflexivity.
  - repeat constructor; eexists; reflexivity.
  - destruct (compute_we_clamps_metric nnp_linear metric_first_x
                metric_first_x unit 350 1 fresh_instance outlier_states []
                one_embedding PyNone weights _
                (map (fun _ => 1 / INR 4) weights) [1; 2; 3; 20000000]
                Hw Hlen (map_val_const _ _ Hall) eq_refl)
      as [(w_e & avg & Hok & Hval & _) _].
    exists w_e, avg. split; [exact Hok|]. rewrite Hval. f_equal.
    destruct weights as [|a [|b [|c [|d [|]]]]]; try discriminate.
    simpl. unfold Rmin.
    repeat match goal with
           | |- context [Rle_dec ?x ?y] => destruct (Rle_dec x y); try lra
           end.
Defined.

(** ** The mode flag and the zero-loss short cut *)

Lemma py_eq_bool_refl (b : bool) : py_eq (PyBool b) (PyBool b) = true.
Proof. unfold py_eq, py_number, feq. apply Reqb_refl. Qed.

Lemma py_eq_true_false : py_eq (PyBool true) (PyBool false) = false.
Proof. unfold py_eq, py_number, feq. apply Reqb_neq. lra. Qed.

Section Gradients.
Variable nnp : list array -> list Z -> list position -> list nat
               -> result (list dual).
Variable metric : state -> state -> scalar.
Variable loss_fn : dual -> dual.
Variable opt_state : Type.
Variable set_to_none : bool.
Variable T : R.
Variable replicas : nat.
Implicit Type self : WeightedEnsemble opt_state.

Lemma extEpot_loop_theta self self' states embeddings batch_num ireps :
  theta self' = theta self ->
  forall acc acc_hat,
    extEpot_loop nnp self' states embeddings batch_num ireps acc acc_hat
    = extEpot_loop nnp self states embeddings batch_num ireps acc acc_hat.
Proof.
  intros Hth. induction ireps as [|irepl ireps IH]; intros acc acc_hat;
    [reflexivity|].
  cbn [extEpot_loop]. destruct embeddings as [|e0 embs]; [reflexivity|].
  rewrite Hth.
  match goal with
  | |- bind ?m _ = bind ?m _ => destruct m as [es|err]
  end; [|reflexivity].
  cbn [bind]. apply IH.
Qed.

(** The loss depends on the instance through its parameters only. *)
Lemma compute_loss_theta self self' crystal states embeddings val_flag :
  theta self' = theta self ->
  compute_loss nnp metric loss_fn T replicas self' crystal states embeddings
               val_flag
  = compute_loss nnp metric loss_fn T replicas self crystal states embeddings
                 val_flag.
Proof.
  intros Hth. unfold compute_loss, compute_we, _weights, _extEpot.
  destruct replicas; [reflexivity|].
  now rewrite (extEpot_loop_theta self self' _ _ _ _ Hth).
Qed.

Lemma compute_gradients_train_mode self crystal native_ensemble states
    embeddings grads_to_cpu val_flag :
  py_eq val_flag (PyBool false) = true ->
  compute_gradients nnp metric loss_fn set_to_none T replicas self crystal
                    native_ensemble states embeddings grads_to_cpu val_flag
  = compute_gradients nnp metric loss_fn set_to_none T replicas self crystal
                      native_ensemble states embeddings grads_to_cpu
                      (PyBool false).
Proof.
  intros H. unfold compute_gradients. rewrite H.
  now rewrite py_eq_bool_refl.
Qed.

Lemma compute_gradients_zero_loss self crystal native_ensemble states
    embeddings grads_to_cpu val_flag loss values_dict :
  py_eq val_flag (PyBool false) = true ->
  compute_loss nnp metric loss_fn T replicas self crystal states embeddings
               (PyBool false) = Ok (loss, values_dict) ->
  val loss = Finite 0 ->
  compute_gradients nnp metric loss_fn set_to_none T replicas self crystal
                    native_ensemble states embeddings grads_to_cpu val_flag
  = (Ok (None, Finite 0,
         dict_set values_dict "train_avg_metric"
                  (dict_get values_dict "avg_metric")),
     zero_grad set_to_none self).
Proof.
  intros Hflag Hloss Hzero. unfold compute_gradients. rewrite Hflag.
  rewrite (compute_loss_theta self (zero_grad set_to_none self)) by reflexivity.
  rewrite Hloss, Hzero. unfold fne, feq. rewrite Reqb_refl.
  reflexivity.
Qed.

(** C6, as the code has it.  In train mode, when the loss is exactly zero,
    [compute_gradients] returns [None] for the gradients and does not
    back-propagate: the gradient slots are left as [zero_grad], which it
    calls first, has reset them, with nothing accumulated on top. *)
Theorem compute_gradients_zero_loss_skips_backward self crystal
    native_ensemble states embeddings grads_to_cpu val_flag loss
    values_dict :
  py_eq val_flag (PyBool false) = true ->
  compute_loss nnp metric loss_fn T replicas self crystal states embeddings
               (PyBool false) = Ok (loss, values_dict) ->
  val loss = Finite 0 ->
  exists values_dict',
    compute_gradients nnp metric loss_fn set_to_none T replicas self crystal
                      native_ensemble states embeddings grads_to_cpu val_flag
    = (Ok (None, Finite 0, values_dict'), zero_grad set_to_none self)
    /\ grad (zero_grad set_to_none self)
       = map (fun g => if set_to_none then None
                       else option_map (map (fun _ => Finite 0)) g)
             (grad self)
    /\ theta (zero_grad set_to_none self) = theta self
    /\ gradnorm_queue (zero_grad set_to_none self) = gradnorm_queue self.
Proof.
  intros Hflag Hloss Hzero. eexists. split; [|repeat split].
  eapply compute_gradients_zero_loss; eassumption.
Qed.

(** C9, as the code has it.  [compute_gradients] raises [ValueError], and
    leaves the instance as it was, for every flag that Python's [==] finds
    equal to neither [False] nor [True]; a flag equal to [False] (such as
    [0] or [0.0]) runs train mode. *)
Theorem compute_gradients_rejects_flags_unequal_to_booleans self crystal
    native_ensemble states embeddings grads_to_cpu val_flag :
  (py_eq val_flag (PyBool false) = false ->
   py_eq val_flag (PyBool true) = false ->
   compute_gradients nnp metric loss_fn set_to_none T replicas self crystal
                     native_ensemble states embeddings grads_to_cpu val_flag
   = (Err ValueError, self))
  /\ (py_eq val_flag (PyBool false) = true ->
      compute_gradients nnp metric loss_fn set_to_none T replicas self
                        crystal native_ensemble states embeddings
                        grads_to_cpu val_flag
      = compute_gradients nnp metric loss_fn set_to_none T replicas self
                          crystal native_ensemble states embeddings
                          grads_to_cpu (PyBool false))
  /\ (py_eq val_flag (PyBool false) = false ->
      py_eq val_flag (PyBool true) = true ->
      compute_gradients nnp metric loss_fn set_to_none T replicas self
                        crystal native_ensemble states embeddings
                        grads_to_cpu val_flag
      = compute_gradients nnp metric loss_fn set_to_none T replicas self
                          crystal native_ensemble states embeddings
                          grads_to_cpu (PyBool true)).
Proof.
  split; [|split].
  - intros Hf Ht. unfold compute_gradients. now rewrite Hf, Ht.
  - apply compute_gradients_train_mode.
  - intros Hf Ht. unfold compute_gradients. rewrite Hf, Ht.
    now rewrite py_eq_true_false, py_eq_bool_refl.
Qed.
End Gradients.

Lemma compute_loss_zero_loss_fn :
  exists values_dict,
    compute_loss nnp_linear metric_first_x zero_loss_fn 350 1
                 instance_with_grad [] four_states one_embedding (PyBool false)
    = Ok (dconst (Finite 0), values_dict).
Proof.
  unfold compute_loss. rewrite py_eq_bool_refl. eexists. reflexivity.
Qed.

Lemma compute_gradients_zero_loss_skips_backward_witness :
  exists values_dict,
    compute_gradients nnp_linear metric_first_x zero_loss_fn true 350 1
                      instance_with_grad [] PyNone four_states one_embedding
                      true (PyBool false)
    = (Ok (None, Finite 0, values_dict), zero_grad true instance_with_grad).
Proof.
  destruct compute_loss_zero_loss_fn as (values_dict & Hloss).
  destruct (compute_gradients_zero_loss_skips_backward
              nnp_linear metric_first_x zero_loss_fn unit true 350 1
              instance_with_grad [] PyNone four_states one_embedding true
              (PyBool false) (dconst (Finite 0)) values_dict
              (py_eq_bool_refl false) Hloss eq_refl)
    as (values_dict' & H & _).
  exists values_dict'. exact H.
Defined.

(** C6, as stated, fails on the gradient slots: with a loss transform that
    returns 0 and a parameter holding the gradient [5], the call in train mode
    returns [None] for the gradients but leaves the slot reset by
    [zero_grad], to [None] or to zeros according to the torch default. *)
Lemma zero_loss_call_resets_gradient_slots :
  grad instance_with_grad = [Some [Finite 5]]
  /\ (exists values_dict,
        compute_gradients nnp_linear metric_first_x zero_loss_fn true 350 1
                          instance_with_grad [] PyNone four_states
                          one_embedding true (PyBool false)
        = (Ok (None, Finite 0, values_dict),
           mkWE [[Finite 1]] [None] tt [Finite 3000]))
  /\ (exists values_dict,
        compute_gradients nnp_linear metric_first_x zero_loss_fn false 350 1
                          instance_with_grad [] PyNone four_states
                          one_embedding true (PyBool false)
        = (Ok (None, Finite 0, values_dict),
           mkWE [[Finite 1]] [Some [Finite 0]] tt [Finite 3000]))
  /\ [@None array] <> [Some [Finite 5]]
  /\ [Some [Finite 0]] <> [Some [Finite 5]].
Proof.
  destruct compute_loss_zero_loss_fn as (values_dict & Hloss).
  split; [reflexivity|]. split; [|split; [|split]].
  - eexists.
    apply (compute_gradients_zero_loss nnp_linear metric_first_x zero_loss_fn
             unit true 350 1 instance_with_grad [] PyNone four_states
             one_embedding true (PyBool false) (dconst (Finite 0)) values_dict
             (py_eq_bool_refl false) Hloss eq_refl).
  - eexists.
    apply (compute_gradients_zero_loss nnp_linear metric_first_x zero_loss_fn
             unit false 350 1 instance_with_grad [] PyNone four_states
             one_embedding true (PyBool false) (dconst (Finite 0)) values_dict
             (py_eq_bool_refl false) Hloss eq_refl).
  - discriminate.
  - intros H. injection H as H. lra.
Qed.

Lemma py_eq_zero_false : py_eq (PyInt 0) (PyBool false) = true.
Proof. unfold py_eq, py_number, feq. apply Reqb_refl. Qed.

Lemma py_eq_none_bool (b : bool) : py_eq PyNone (PyBool b) = false.
Proof. reflexivity. Qed.

Lemma compute_gradients_rejects_flags_unequal_to_booleans_witness :
  compute_gradients nnp_linear metric_first_x zero_loss_fn true 350 1
                    instance_with_grad [] PyNone four_states one_embedding
                    true PyNone
  = (Err ValueError, instance_with_grad).
Proof.
  exact (proj1 (compute_gradients_rejects_flags_unequal_to_booleans
                  nnp_linear metric_first_x zero_loss_fn unit true 350 1
                  instance_with_grad [] PyNone four_states one_embedding
                  true PyNone)
               (py_eq_none_bool false) (py_eq_none_bool true)).
Defined.

(** C9, as stated, fails: the integer [0] is not one of the two booleans, yet
    [compute_gradients] takes it for [False] and runs train mode to its
    end. *)
Lemma compute_gradients_accepts_integer_zero :
  PyInt 0 <> PyBool false
  /\ PyInt 0 <> PyBool true
  /\ exists values_dict,
       compute_gradients nnp_linear metric_first_x zero_loss_fn true 350 1
                         instance_with_grad [] PyNone four_states
                         one_embedding true (PyInt 0)
       = (Ok (None, Finite 0, values_dict),
          zero_grad true instance_with_grad).
Proof.
  split; [discriminate|]. split; [discriminate|].
  destruct compute_loss_zero_loss_fn as (values_dict & Hloss).
  eexists.
  apply (compute_gradients_zero_loss nnp_linear metric_first_x zero_loss_fn
           unit true 350 1 instance_with_grad [] PyNone four_states
           one_embedding true (PyInt 0) (dconst (Finite 0)) values_dict
           py_eq_zero_false Hloss eq_refl).
Qed.

(** ** Dynamic gradient clipping *)

Lemma queue_mean_seed : queue_mean [Finite 3000] = Finite 3000.
Proof.
  unfold queue_mean, fmean. simpl fsum. simpl length.
  rewrite fdiv_finite by (simpl; lra). f_equal. simpl. lra.
Qed.

Lemma queue_std_seed : queue_std [Finite 3000] = Finite 0.
Proof.
  unfold queue_std. fold (queue_mean [Finite 3000]). rewrite queue_mean_seed.
  unfold fmean. simpl map. simpl fsum. simpl length.
  rewrite fdiv_finite by (simpl; lra).
  rewrite fsqrt_nonneg by (simpl; lra). f_equal.
  transitivity (sqrt 0); [f_equal; simpl; lra | apply sqrt_0].
Qed.

Lemma dynamic_max_grad_norm_seed :
  dynamic_max_grad_norm two_param_instance = Finite 4500.
Proof.
  unfold dynamic_max_grad_norm. simpl gradnorm_queue.
  rewrite queue_mean_seed, queue_std_seed. simpl. f_equal. lra.
Qed.

Lemma norm2_single (x : R) : 0 <= x -> norm2 [Finite x] = Finite x.
Proof.
  intros Hx. unfold norm2. simpl map. simpl fsum.
  rewrite fsqrt_nonneg by nra. f_equal.
  replace (x * x + 0) with (x * x) by lra. now apply sqrt_square.
Qed.

Lemma get_grad_norm_two_params :
  get_grad_norm (grad two_param_instance) = Finite (sqrt 32000000).
Proof.
  unfold get_grad_norm. simpl flat_map.
  rewrite (norm2_single 4000) by lra.
  unfold norm2. simpl map. simpl fsum.
  rewrite fsqrt_nonneg by lra. f_equal. f_equal. lra.
Qed.

Lemma sqrt_above_threshold : 4500 < sqrt 32000000.
Proof.
  rewrite <- (sqrt_square 4500) by lra. apply sqrt_lt_1; lra.
Qed.

Lemma clip_grad_norm_below_threshold :
  clip_grad_norm_ [Finite 4000] (Finite 4500) = [Finite 4000].
Proof.
  unfold clip_grad_norm_. rewrite (norm2_single 4000) by lra.
  simpl fadd. rewrite fdiv_finite by lra.
  unfold fgt. rewrite Rgtb_true.
  - simpl. f_equal. f_equal. lra.
  - apply Rmult_lt_reg_r with (4000 + 1 / 1000000); [lra|].
    unfold Rdiv at 2. rewrite Rmult_assoc, Rinv_l by lra. lra.
Qed.

(** C3, on the code.  Two parameters with the gradient [4000] each and the
    history [3000]: the threshold is [1.5 * 3000 + 2 * 0 = 4500] and the total
    norm [sqrt(4000^2 + 4000^2)] exceeds it, yet [clip_gradients] clips each
    parameter against the threshold on its own, so both gradients stay as
    they are and the total norm stays above the threshold, while the
    threshold is appended to the history as if the clip had happened;
    [apply_gradients] with these gradients does exactly this before the
    optimizer step. *)
Theorem clip_gradients_clips_each_parameter_alone :
  dynamic_max_grad_norm two_param_instance = Finite 4500
  /\ get_grad_norm (grad two_param_instance) = Finite (sqrt 32000000)
  /\ 4500 < sqrt 32000000
  /\ grad (clip_gradients 50 two_param_instance)
     = [Some [Finite 4000]; Some [Finite 4000]]
  /\ get_grad_norm (grad (clip_gradients 50 two_param_instance))
     = Finite (sqrt 32000000)
  /\ gradnorm_queue (clip_gradients 50 two_param_instance)
     = [Finite 3000; Finite 4500]
  /\ apply_gradients keep_params 50 two_param_instance
                     (Some [Some [Finite 4000]; Some [Finite 4000]])
     = clip_gradients 50 two_param_instance.
Proof.
  assert (Hg : grad (clip_gradients 50 two_param_instance)
               = [Some [Finite 4000]; Some [Finite 4000]]).
  { unfold clip_gradients. cbn [grad]. rewrite dynamic_max_grad_norm_seed.
    change (grad two_param_instance)
      with [Some [Finite 4000]; Some [Finite 4000]].
    cbn [map]. now rewrite clip_grad_norm_below_threshold. }
  split; [exact dynamic_max_grad_norm_seed|].
  split; [exact get_grad_norm_two_params|].
  split; [exact sqrt_above_threshold|].
  split; [exact Hg|].
  split; [rewrite Hg; exact get_grad_norm_two_params|].
  split; [|reflexivity].
  unfold clip_gradients. cbn [gradnorm_queue].
  rewrite dynamic_max_grad_norm_seed, get_grad_norm_two_params.
  unfold fgt. rewrite (Rgtb_true _ _ sqrt_above_threshold).
  reflexivity.
Qed.

(** * Further properties of the estimator *)

(** ** What [_extEpot] reads and how it fails *)

Section Evaluator.
Variable nnp : list array -> list Z -> list position -> list nat
               -> result (list dual).
Variable opt_state : Type.
Variable replicas : nat.
Implicit Type self : WeightedEnsemble opt_state.

Lemma extEpot_loop_first_row self states embeddings_0 rest rest' batch_num
    ireps :
  forall acc acc_hat,
    extEpot_loop nnp self states (embeddings_0 :: rest) batch_num ireps
      acc acc_hat
    = extEpot_loop nnp self states (embeddings_0 :: rest') batch_num ireps
        acc acc_hat.
Proof.
  induction ireps as [|irepl ireps IH]; intros acc acc_hat; [reflexivity|].
  cbn [extEpot_loop].
  match goal with
  | |- bind ?m _ = bind ?m _ => destruct m as [es|err]
  end; [|reflexivity].
  cbn [bind]. apply IH.
Qed.

(** X1.  [_extEpot] reads the first embedding row only ([embeddings[0]] for
    every replica): two embedding tensors with the same first row give the
    same result, whatever their other rows are. *)
Theorem extEpot_reads_first_embedding_row_only self states embeddings_0
    rest rest' mode :
  _extEpot nnp replicas self states (embeddings_0 :: rest) mode
  = _extEpot nnp replicas self states (embeddings_0 :: rest') mode.
Proof.
  unfold _extEpot. destruct replicas; [reflexivity|].
  apply extEpot_loop_first_row.
Qed.

Lemma slice_zero_width (A : Type) (l : list A) (i : nat) :
  slice l (0 * i) (0 * (i + 1)) = [].
Proof. reflexivity. Qed.

Lemma extEpot_loop_empty_batches self states states' embeddings ireps :
  forall acc acc_hat,
    extEpot_loop nnp self states embeddings 0 ireps acc acc_hat
    = extEpot_loop nnp self states' embeddings 0 ireps acc acc_hat.
Proof.
  induction ireps as [|irepl ireps IH]; intros acc acc_hat; [reflexivity|].
  cbn [extEpot_loop]. rewrite !slice_zero_width.
  destruct embeddings as [|e0 embs]; [reflexivity|].
  match goal with
  | |- bind ?m _ = bind ?m _ => destruct m as [es|err]
  end; [|reflexivity].
  cbn [bind]. apply IH.
Qed.

(** X2.  With two or more replicas, [get_native_U] does not evaluate the
    ground truth: [batch_num] is [1 // replicas = 0], every sub-batch handed
    to the potential is empty, and the result is the same for any two ground
    truths. *)
Theorem get_native_U_ignores_ground_truth self ground_truths ground_truths'
    embeddings :
  (2 <= replicas)%nat ->
  get_native_U nnp replicas self ground_truths embeddings
  = get_native_U nnp replicas self ground_truths' embeddings.
Proof.
  intros Hr. unfold get_native_U, _extEpot.
  destruct replicas as [|r] eqn:Hrep; [reflexivity|]. rewrite <- Hrep.
  assert (Hb : (length [ground_truths] / replicas = 0)%nat)
    by (apply Nat.div_small; simpl; lia).
  assert (Hb' : (length [ground_truths'] / replicas = 0)%nat)
    by (apply Nat.div_small; simpl; lia).
  rewrite Hb, Hb'. apply extEpot_loop_empty_batches.
Qed.

(** X3.  With one replica, [get_native_U] is one call of the potential on the
    ground truth with the first embedding row, and returns its energies with
    their detached copies. *)
Theorem get_native_U_one_replica self ground_truths embeddings_0 embeddings :
  replicas = 1%nat ->
  get_native_U nnp replicas self ground_truths (embeddings_0 :: embeddings)
  = bind (potential_on nnp (theta self) embeddings_0 [ground_truths])
         (fun es => Ok (es, map detach es)).
Proof.
  intros ->. unfold get_native_U, _extEpot, potential_on.
  cbn [length Nat.div seq extEpot_loop]. 
  change (slice [ground_truths] _ _) with [ground_truths].
  match goal with
  | |- bind ?m _ = bind ?m' _ => change m with m'; destruct m' as [es|err]
  end; reflexivity.
Qed.
End Evaluator.

Lemma get_native_U_ignores_ground_truth_witness :
  get_native_U nnp_linear 2 fresh_instance (atom_at 1) one_embedding
  = get_native_U nnp_linear 2 fresh_instance (atom_at 2) one_embedding.
Proof.
  apply (get_native_U_ignores_ground_truth nnp_linear unit 2 fresh_instance).
  lia.
Defined.

Lemma get_native_U_one_replica_witness :
  get_native_U nnp_linear 1 fresh_instance (atom_at 7) one_embedding
  = Ok ([mkDual (Finite 7) true (fun _ _ => Finite 7)],
        [detach (mkDual (Finite 7) true (fun _ _ => Finite 7))]).
Proof.
  exact (eq_trans (get_native_U_one_replica nnp_linear unit 1 fresh_instance
                     (atom_at 7) [1%Z] [] eq_refl) eq_refl).
Defined.

(** ** Errors and shape mismatches on the way to the observable *)

Section Pipeline.
Variable nnp : list array -> list Z -> list position -> list nat
               -> result (list dual).
Variable metric : state -> state -> scalar.
Variable loss_fn : dual -> dual.
Variable opt_state : Type.
Variable set_to_none : bool.
Variable T : R.
Variable replicas : nat.
Implicit Type self : WeightedEnsemble opt_state.

(** X4.  An error of the potential evaluator ([ZeroDivisionError] for zero
    replicas, [IndexError] for empty embeddings, an error of the potential)
    is the error of every method above it; [compute_gradients] raises it
    after [zero_grad] in train mode and with the instance untouched in
    validation mode. *)
Theorem evaluator_error_propagates self crystal native_ensemble states
    embeddings grads_to_cpu neff_threshold val_flag e :
  _extEpot nnp replicas self states embeddings "train" = Err e ->
  _weights nnp T replicas self states embeddings = Err e
  /\ compute_we nnp metric T replicas self states crystal embeddings
                neff_threshold = Err e
  /\ compute_loss nnp metric loss_fn T replicas self crystal states
                  embeddings val_flag = Err e
  /\ compute_gradients nnp metric loss_fn set_to_none T replicas self crystal
                       native_ensemble states embeddings grads_to_cpu
                       (PyBool false)
     = (Err e, zero_grad set_to_none self)
  /\ compute_gradients nnp metric loss_fn set_to_none T replicas self crystal
                       native_ensemble states embeddings grads_to_cpu
                       (PyBool true)
     = (Err e, self).
Proof.
  intros Hext.
  assert (Hw : _weights nnp T replicas self states embeddings = Err e)
    by (unfold _weights; now rewrite Hext).
  assert (Hwe : forall t,
             compute_we nnp metric T replicas self states crystal embeddings t
             = Err e)
    by (intros t; unfold compute_we; now rewrite Hw).
  assert (Hl : forall v,
             compute_loss nnp metric loss_fn T replicas self crystal states
                          embeddings v = Err e)
    by (intros v; unfold compute_loss; now rewrite Hwe).
  repeat split; auto.
  - unfold compute_gradients. rewrite py_eq_bool_refl.
    rewrite (compute_loss_theta nnp metric loss_fn opt_state T replicas self
               (zero_grad set_to_none self)) by reflexivity.
    now rewrite Hl.
  - unfold compute_gradients. rewrite py_eq_true_false, py_eq_bool_refl.
    now rewrite Hl.
Qed.

Lemma extEpot_returns self states embeddings_0 embeddings mode
    (energies_of : nat -> list dual) :
  replicas <> 0%nat ->
  (forall irepl, (irepl < replicas)%nat ->
     potential_on nnp (theta self) embeddings_0
       (slice states (length states / replicas * irepl)
                     (length states / replicas * (irepl + 1)))
     = Ok (energies_of irepl)
     /\ length (energies_of irepl) = (length states / replicas)%nat) ->
  _extEpot nnp replicas self states (embeddings_0 :: embeddings) mode
  = Ok (concat (map energies_of (seq 0 replicas)),
        map detach (concat (map energies_of (seq 0 replicas))))
  /\ length (concat (map energies_of (seq 0 replicas)))
     = (replicas * (length states / replicas))%nat.
Proof.
  intros Hr Hnnp. split.
  - unfold _extEpot. destruct replicas as [|r] eqn:Hrep; [congruence|].
    rewrite <- Hrep in *.
    rewrite (extEpot_loop_returns nnp opt_state self states embeddings_0
               embeddings (length states / replicas) energies_of);
      [reflexivity|].
    intros irepl Hin. apply in_seq in Hin. apply Hnnp. lia.
  - rewrite (length_concat_batches energies_of (length states / replicas)).
    + now rewrite length_seq.
    + intros i Hi. apply in_seq in Hi. apply Hnnp. lia.
Qed.

Lemma length_normalize (U_arg : list dual) :
  length (normalize U_arg) = length U_arg.
Proof. unfold normalize. now rewrite !length_map. Qed.

Lemma weights_length self states embeddings E E_hat :
  _extEpot nnp replicas self states embeddings "train" = Ok (E, E_hat) ->
  exists weights,
    _weights nnp T replicas self states embeddings = Ok (weights, E_hat)
    /\ length weights = length E.
Proof.
  intros H. eexists. split.
  - apply weights_unfold. exact H.
  - now rewrite length_normalize, length_map.
Qed.

(** X5.  A potential that returns one energy per state gives
    [replicas * (n // replicas)] weights; when [n] states are not a multiple
    of the replicas and there is more than one state, the product of weights
    and metric values has mismatched sizes and [compute_we] raises
    [RuntimeError]. *)
Theorem compute_we_shape_mismatch self states crystal embeddings_0 embeddings
    neff_threshold (energies_of : nat -> list dual) :
  replicas <> 0%nat ->
  (forall irepl, (irepl < replicas)%nat ->
     potential_on nnp (theta self) embeddings_0
       (slice states (length states / replicas * irepl)
                     (length states / replicas * (irepl + 1)))
     = Ok (energies_of irepl)
     /\ length (energies_of irepl) = (length states / replicas)%nat) ->
  (length states mod replicas <> 0)%nat ->
  length states <> 1%nat ->
  compute_we nnp metric T replicas self states crystal
             (embeddings_0 :: embeddings) neff_threshold
  = Err RuntimeError.
Proof.
  intros Hr Hnnp Hmod Hn1.
  destruct (extEpot_returns self states embeddings_0 embeddings "train"
              energies_of Hr Hnnp) as [Hext HlenE].
  destruct (weights_length self states (embeddings_0 :: embeddings) _ _ Hext)
    as (weights & Hw & Hlen).
  rewrite HlenE in Hlen.
  pose proof (Nat.div_mod_eq (length states) replicas) as Hdm.
  unfold compute_we. rewrite Hw. cbn [bind].
  unfold broadcast2. rewrite !length_map.
  assert (Hneq : length weights <> length states) by lia.
  apply Nat.eqb_neq in Hneq. rewrite Hneq.
  assert (Hw1 : length weights <> 1%nat).
  { intros H1. rewrite H1 in Hlen. symmetry in Hlen.
    apply Nat.eq_mul_1 in Hlen. destruct Hlen as [Hr1 _].
    rewrite Hr1 in Hmod. simpl in Hmod. congruence. }
  destruct weights as [|w [|w' ws]]; simpl in Hw1; try congruence.
  - destruct states as [|s [|s' ss]]; simpl in *; try congruence;
      reflexivity.
  - destruct states as [|s [|s' ss]]; simpl in *; try congruence;
      reflexivity.
Qed.

(** X6.  A single state with two or more replicas is the one mismatch that
    raises nothing: there are no weights, the product broadcasts to an empty
    tensor, and the weighted observable has the value 0, whatever the metric
    of the state is; the mean metric is still the clamped metric of the
    state. *)
Theorem compute_we_single_state_many_replicas self s crystal embeddings_0
    embeddings neff_threshold :
  (2 <= replicas)%nat ->
  potential_on nnp (theta self) embeddings_0 [] = Ok [] ->
  exists w_e avg_metric,
    compute_we nnp metric T replicas self [s] crystal
               (embeddings_0 :: embeddings) neff_threshold
    = Ok (w_e, avg_metric)
    /\ val w_e = Finite 0
    /\ avg_metric = fmean [clamp_obs (metric s crystal)].
Proof.
  intros Hr Hempty.
  assert (Hb : (length [s] / replicas = 0)%nat)
    by (apply Nat.div_small; simpl; lia).
  destruct (extEpot_returns self [s] embeddings_0 embeddings "train"
              (fun _ => []) ltac:(lia)) as [Hext HlenE].
  { intros irepl _. rewrite Hb. split; [exact Hempty | reflexivity]. }
  destruct (weights_length self [s] (embeddings_0 :: embeddings) _ _ Hext)
    as (weights & Hw & Hlen).
  rewrite HlenE, Hb, Nat.mul_0_r in Hlen.
  destruct weights; [|discriminate].
  unfold compute_we. rewrite Hw. cbn [bind].
  eexists. eexists. split; [reflexivity|]. repeat split.
Qed.
End Pipeline.

Lemma evaluator_error_propagates_witness :
  compute_gradients nnp_linear metric_first_x zero_loss_fn true 350 0
                    instance_with_grad [] PyNone four_states one_embedding
                    true (PyBool false)
  = (Err ZeroDivisionError, zero_grad true instance_with_grad).
Proof.
  exact (proj1 (proj2 (proj2 (proj2
           (evaluator_error_propagates nnp_linear metric_first_x zero_loss_fn
              unit true 350 0 instance_with_grad [] PyNone four_states
              one_embedding true PyNone (PyBool false) ZeroDivisionError
              eq_refl))))).
Defined.

Lemma compute_we_shape_mismatch_witness :
  compute_we nnp_linear metric_first_x 350 2 fresh_instance three_states []
             one_embedding PyNone
  = Err RuntimeError.
Proof.
  apply (compute_we_shape_mismatch nnp_linear metric_first_x unit 350 2
           fresh_instance three_states [] [1%Z] [] PyNone two_batches).
  - discriminate.
  - intros irepl Hi.
    destruct irepl as [|[|irepl]]; [| |lia]; split; reflexivity.
  - discriminate.
  - discriminate.
Defined.

Lemma compute_we_single_state_many_replicas_witness :
  exists w_e avg_metric,
    compute_we nnp_linear metric_first_x 350 2 fresh_instance [atom_at 5] []
               one_embedding PyNone
    = Ok (w_e, avg_metric)
    /\ val w_e = Finite 0.
Proof.
  destruct (compute_we_single_state_many_replicas nnp_linear metric_first_x
              unit 350 2 fresh_instance (atom_at 5) [] [1%Z] [] PyNone)
    as (w_e & avg & H & Hv & _).
  - lia.
  - reflexivity.
  - exists w_e, avg. split; assumption.
Defined.

(** ** Value and derivative of the weighted observable *)

Lemma normalize_map_log_weight (c : R) (E : list dual) :
  normalize (map (fun e => log_weight c e (detach e)) E)
  = map (fun e =>
           ddiv (dexp (log_weight c e (detach e)))
                (dsum (map dexp (map (fun e => log_weight c e (detach e)) E))))
        E.
Proof. unfold normalize. now rewrite !map_map. Qed.

Lemma Forall2_map_r_inv (A B : Type) (P : A -> B -> Prop) (f : A -> B)
    (l : list A) :
  Forall2 P l (map f l) -> forall a, In a l -> P a (f a).
Proof.
  induction l as [|x l IH]; intros H a Ha; [contradiction|].
  inversion H; subst. destruct Ha as [-> | Ha]; [assumption|].
  now apply IH.
Qed.

Lemma tan_weighted_sum (h : dual -> dual) (a : R) (t : dual -> R)
    (k j : nat) (E : list dual) :
  (forall e, In e E -> val (h e) = Finite a /\ tan (h e) k j = Finite (t e)) ->
  forall cs : list R,
    tan (dsum (map2 dmul (map h E) (map dconst (map Finite cs)))) k j
    = Finite (Rsum (map2 (fun e c => t e * c + a * 0) E cs)).
Proof.
  induction E as [|e E IH]; intros H cs; [reflexivity|].
  destruct cs as [|c cs]; [reflexivity|].
  cbn [map map2 dsum fold_right].
  change (fold_right dadd (dconst (Finite 0)) ?l) with (dsum l).
  cbn [tan dadd dmul dconst val no_tan].
  destruct (H e (or_introl eq_refl)) as [Hv Ht]. rewrite Hv, Ht.
  rewrite IH by (intros e' He'; apply H; now right).
  reflexivity.
Qed.

Lemma Rsum_map2_centered (f : dual -> R) (M n a : R) (E : list dual) :
  forall cs : list R,
    length cs = length E ->
    Rsum (map2 (fun e c => (f e - M) / n * c + a * 0) E cs)
    = (Rsum (map2 (fun c e => c * f e) cs E) - M * Rsum cs) / n.
Proof.
  induction E as [|e E IH]; intros [|c cs] Hlen; try discriminate.
  - simpl. unfold Rdiv. lra.
  - simpl. rewrite IH by (now injection Hlen). unfold Rdiv. lra.
Qed.

Lemma fmean_finite (rs : list R) :
  rs <> [] -> fmean (map Finite rs) = Finite (Rmean rs).
Proof.
  intros Hne. unfold fmean, Rmean. rewrite fsum_finite, length_map.
  apply fdiv_finite. pose proof (INR_length_pos _ rs Hne). lra.
Qed.

Lemma map_clamp_finite (os : list R) :
  map clamp_obs (map Finite os)
  = map Finite (map (fun o => Rmin o 10000000) os).
Proof.
  rewrite !map_map. apply map_ext. intros o. apply clamp_obs_finite.
Qed.

Lemma Rsum_map2_const_l (A : Type) (a : R) (l : list A) :
  forall cs : list R,
    length cs = length l ->
    Rsum (map2 (fun w c => w * c) (map (fun _ => a) l) cs) = a * Rsum cs.
Proof.
  induction l as [|x l IH]; intros [|c cs] Hlen; try discriminate.
  - simpl. lra.
  - simpl. rewrite IH by (now injection Hlen). lra.
Qed.

Lemma Rsum_le_bound (b : R) (l : list R) :
  (forall x, In x l -> x <= b) -> Rsum l <= INR (length l) * b.
Proof.
  induction l as [|x l IH]; intros H; [simpl; lra|].
  change (length (x :: l)) with (S (length l)). rewrite S_INR. simpl.
  assert (x <= b) by (apply H; now left).
  assert (Rsum l <= INR (length l) * b) by (apply IH; intros; apply H; now right).
  lra.
Qed.

Lemma val_weighted_sum_const (h : dual -> dual) (a : R) (E : list dual) :
  (forall e, In e E -> val (h e) = Finite a) ->
  forall cs : list R,
    length cs = length E ->
    val (dsum (map2 dmul (map h E) (map dconst (map Finite cs))))
    = Finite (a * Rsum cs).
Proof.
  induction E as [|e E IH]; intros H [|c cs] Hlen; try discriminate.
  - simpl. f_equal. lra.
  - cbn [map map2 dsum fold_right].
    change (fold_right dadd (dconst (Finite 0)) ?l) with (dsum l).
    cbn [val dadd dmul dconst]. rewrite (H e (or_introl eq_refl)).
    rewrite IH; [|intros e' He'; apply H; now right | now injection Hlen].
    simpl. f_equal. lra.
Qed.

Lemma map2_length (A B C : Type) (f : A -> B -> C) (l : list A)
    (l' : list B) :
  length l = length l' -> length (map2 f l l') = length l.
Proof.
  revert l'. induction l as [|a l IH]; intros [|b l'] H; simpl in *;
    try discriminate; [reflexivity|]. f_equal. apply IH. now injection H.
Qed.

Lemma Rsum_map2_scale (g : dual -> R) (c : R) (E : list dual) :
  forall cs : list R,
    Rsum (map2 (fun o e => o * - (g e / c)) cs E)
    = - (Rsum (map2 (fun o e => o * g e) cs E) / c).
Proof.
  induction E as [|e E IH]; intros [|o cs]; simpl;
    try (unfold Rdiv; lra).
  rewrite IH. unfold Rdiv. lra.
Qed.

Lemma Rsum_map_scale (g : dual -> R) (c : R) (E : list dual) :
  Rsum (map (fun e => - (g e / c)) E) = - (Rsum (map g E) / c).
Proof.
  induction E as [|e E IH]; simpl; [unfold Rdiv; lra|].
  rewrite IH. unfold Rdiv. lra.
Qed.

Lemma Rsum_map2_const (g : dual -> R) (c0 : R) (E : list dual) :
  forall cs : list R,
    length cs = length E ->
    (forall x, In x cs -> x = c0) ->
    Rsum (map2 (fun o e => o * g e) cs E) = c0 * Rsum (map g E)
    /\ Rsum cs = INR (length E) * c0.
Proof.
  induction E as [|e E IH]; intros [|o cs] Hlen Hc; try discriminate.
  - simpl. lra.
  - change (length (e :: E)) with (S (length E)). rewrite S_INR. simpl.
    destruct (IH cs) as [H1 H2]; [now injection Hlen | |].
    + intros x Hx. apply Hc. now right.
    + rewrite H1, H2, (Hc o (or_introl eq_refl)). lra.
Qed.

Section ObservableGradient.
Variable nnp : list array -> list Z -> list position -> list nat
               -> result (list dual).
Variable metric : state -> state -> scalar.
Variable opt_state : Type.
Variable T : R.
Variable replicas : nat.
Implicit Type self : WeightedEnsemble opt_state.

Lemma compute_we_unfold self states crystal embeddings neff_threshold
    U_ext U_ext_hat :
  _extEpot nnp replicas self states embeddings "train"
    = Ok (U_ext, U_ext_hat) ->
  length U_ext = length states ->
  compute_we nnp metric T replicas self states crystal embeddings
             neff_threshold
  = Ok (dsum (map2 dmul
                (normalize (map (fun e => log_weight (T * BOLTZMAN) e (detach e))
                                U_ext))
                (map dconst
                   (map clamp_obs
                      (map (fun state => metric state crystal) states)))),
        fmean (map clamp_obs (map (fun state => metric state crystal) states))).
Proof.
  intros Hext Hlen. unfold compute_we.
  rewrite (weights_unfold nnp opt_state T replicas self states embeddings
             U_ext U_ext_hat Hext).
  cbn [bind]. rewrite broadcast2_same_length; [reflexivity|].
  now rewrite length_normalize, !length_map.
Qed.

(** X7.  For finite energies, one per state, and finite metric values, the
    value of the weighted observable is the plain mean of the clamped metric
    values: it is equal to the [avg_metric] returned beside it, and at most
    [1e7]. *)
Theorem weighted_observable_value_is_avg_metric self states crystal
    embeddings neff_threshold U_ext U_ext_hat os :
  T * BOLTZMAN <> 0 ->
  _extEpot nnp replicas self states embeddings "train"
    = Ok (U_ext, U_ext_hat) ->
  Forall (fun e => is_finite (val e)) U_ext ->
  length U_ext = length states ->
  states <> [] ->
  map (fun state => metric state crystal) states = map Finite os ->
  exists w_e avg_metric,
    compute_we nnp metric T replicas self states crystal embeddings
               neff_threshold = Ok (w_e, avg_metric)
    /\ val w_e = avg_metric
    /\ avg_metric = Finite (Rmean (map (fun o => Rmin o 10000000) os))
    /\ Rmean (map (fun o => Rmin o 10000000) os) <= 10000000.
Proof.
  intros Hc Hext Hfin Hlen Hne Hobs.
  assert (Hlos : length os = length states).
  { apply (f_equal (@length scalar)) in Hobs. now rewrite !length_map in Hobs. }
  assert (HneE : U_ext <> []).
  { intros ->. destruct states; [congruence | discriminate]. }
  pose proof (INR_length_pos _ U_ext HneE) as Hn.
  set (cs := map (fun o => Rmin o 10000000) os).
  assert (Hlcs : length cs = length U_ext)
    by (unfold cs; rewrite length_map; lia).
  eexists. eexists. split.
  { apply (compute_we_unfold self states crystal embeddings neff_threshold
             U_ext U_ext_hat Hext Hlen). }
  rewrite Hobs, map_clamp_finite. fold cs.
  rewrite fmean_finite by (intros H0; rewrite H0 in Hlcs; destruct U_ext;
                            [congruence | discriminate]).
  split; [|split; [reflexivity|]].
  - rewrite normalize_map_log_weight.
    rewrite (val_weighted_sum_const _ (1 / INR (length U_ext))).
    + f_equal. unfold Rmean. rewrite Hlcs. field. lra.
    + intros e He.
      change (val (ddiv ?x ?y)) with (fdiv (val x) (val y)).
      rewrite (val_exp_lw (T * BOLTZMAN) Hc U_ext Hfin e He).
      rewrite (val_S (T * BOLTZMAN) Hc U_ext Hfin).
      apply fdiv_finite. lra.
    + exact Hlcs.
  - unfold Rmean. rewrite Hlcs.
    assert (Hb : Rsum cs <= INR (length cs) * 10000000).
    { apply Rsum_le_bound. intros x Hx. unfold cs in Hx.
      apply in_map_iff in Hx as (o & <- & _). apply Rmin_r. }
    rewrite Hlcs in Hb.
    apply Rmult_le_reg_r with (INR (length U_ext)); [exact Hn|].
    unfold Rdiv. rewrite Rmult_assoc, Rinv_l by lra. lra.
Qed.

(** X8.  The derivative of the weighted observable with respect to a
    parameter of the potential is the reweighting formula
    [-(mean(obs * dU) - mean(obs) * mean(dU)) / (T * BOLTZMAN)], the
    covariance over the states of the clamped metric and the derivative [dU]
    of the energy; in particular it is zero when the clamped metric is the
    same for every state. *)
Theorem weighted_observable_derivative_is_covariance self states crystal
    embeddings neff_threshold U_ext U_ext_hat os k j :
  T * BOLTZMAN <> 0 ->
  _extEpot nnp replicas self states embeddings "train"
    = Ok (U_ext, U_ext_hat) ->
  Forall (fun e => is_finite (val e)) U_ext ->
  Forall (fun e => is_finite (tan e k j)) U_ext ->
  length U_ext = length states ->
  states <> [] ->
  map (fun state => metric state crystal) states = map Finite os ->
  exists w_e avg_metric,
    compute_we nnp metric T replicas self states crystal embeddings
               neff_threshold = Ok (w_e, avg_metric)
    /\ tan w_e k j
       = Finite
           (- (Rmean (map2 (fun o e => o * real_of (tan e k j))
                           (map (fun o => Rmin o 10000000) os) U_ext)
               - Rmean (map (fun o => Rmin o 10000000) os)
                 * Rmean (map (fun e => real_of (tan e k j)) U_ext))
            / (T * BOLTZMAN))
    /\ ((forall o o', In o os -> In o' os ->
           Rmin o 10000000 = Rmin o' 10000000) ->
        tan w_e k j = Finite 0).
Proof.
  intros Hc Hext Hfin Htan Hlen Hne Hobs.
  assert (Hlos : length os = length states).
  { apply (f_equal (@length scalar)) in Hobs. now rewrite !length_map in Hobs. }
  assert (HneE : U_ext <> []).
  { intros ->. destruct states; [congruence | discriminate]. }
  pose proof (INR_length_pos _ U_ext HneE) as Hn.
  set (cs := map (fun o => Rmin o 10000000) os).
  assert (Hlcs : length cs = length U_ext)
    by (unfold cs; rewrite length_map; lia).
  set (n := INR (length U_ext)) in *.
  set (du := dlog_weight (T * BOLTZMAN) k j).
  set (M := Rsum (map du U_ext) / n).
  assert (Ht : tan (dsum (map2 dmul
                (normalize (map (fun e => log_weight (T * BOLTZMAN) e (detach e))
                                U_ext))
                (map dconst (map Finite cs)))) k j
               = Finite ((Rsum (map2 (fun o e => o * du e) cs U_ext)
                          - M * Rsum cs) / n)).
  { rewrite normalize_map_log_weight.
    rewrite (tan_weighted_sum _ (1 / n) (fun e => (du e - M) / n) k j).
    - f_equal. apply Rsum_map2_centered. exact Hlcs.
    - intros e He. split.
      + change (val (ddiv ?x ?y)) with (fdiv (val x) (val y)).
        rewrite (val_exp_lw (T * BOLTZMAN) Hc U_ext Hfin e He).
        rewrite (val_S (T * BOLTZMAN) Hc U_ext Hfin).
        apply fdiv_finite. unfold n in *. lra.
      + pose proof (normalize_log_weights (T * BOLTZMAN) U_ext Hc Hfin) as H2.
        rewrite normalize_map_log_weight in H2.
        destruct (Forall2_map_r_inv _ _ _ _ _ H2 e He) as (_ & _ & H3).
        exact (H3 k j Htan). }
  eexists. eexists. split.
  { apply (compute_we_unfold self states crystal embeddings neff_threshold
             U_ext U_ext_hat Hext Hlen). }
  rewrite Hobs, map_clamp_finite. fold cs. rewrite Ht.
  assert (Hl2 : length (map2 (fun o e => o * real_of (tan e k j)) cs U_ext)
                = length U_ext)
    by (rewrite map2_length; assumption).
  split.
  - f_equal. unfold M, Rmean, du, dlog_weight.
    rewrite Rsum_map2_scale, Rsum_map_scale, Hl2, Hlcs, length_map.
    fold n. field. repeat split; try (unfold n in *; lra); intros H0; apply Hc; rewrite H0; lra.
  - intros Hconst.
    destruct cs as [|c0 cs'] eqn:Hcs;
      [destruct U_ext; [congruence | discriminate]|].
    destruct (Rsum_map2_const du c0 U_ext (c0 :: cs') Hlcs) as [H1 H2].
    { intros x Hx.
      assert (Hin0 : In c0 (map (fun o => Rmin o 10000000) os))
        by (fold cs; rewrite Hcs; now left).
      assert (Hinx : In x (map (fun o => Rmin o 10000000) os))
        by (fold cs; rewrite Hcs; exact Hx).
      apply in_map_iff in Hin0 as (o0 & <- & Ho0).
      apply in_map_iff in Hinx as (ox & <- & Hox).
      now apply Hconst. }
    rewrite H1, H2. f_equal. unfold M. fold n. field. unfold n in *. lra.
Qed.
End ObservableGradient.

Lemma outlier_energies_finite :
  Forall (fun e => is_finite (val e)) outlier_energies
  /\ Forall (fun e => is_finite (tan e 0 0)) outlier_energies.
Proof. split; repeat constructor; eexists; reflexivity. Qed.

Lemma weighted_observable_value_is_avg_metric_witness :
  exists w_e avg_metric,
    compute_we nnp_linear metric_first_x 350 1 fresh_instance outlier_states
               [] one_embedding PyNone = Ok (w_e, avg_metric)
    /\ val w_e = avg_metric.
Proof.
  destruct (weighted_observable_value_is_avg_metric nnp_linear metric_first_x
              unit 350 1 fresh_instance outlier_states [] one_embedding PyNone
              outlier_energies (map detach outlier_energies)
              [1; 2; 3; 20000000])
    as (w_e & avg & H & Hv & _).
  - unfold BOLTZMAN. lra.
  - reflexivity.
  - exact (proj1 outlier_energies_finite).
  - reflexivity.
  - discriminate.
  - reflexivity.
  - exists w_e, avg. split; assumption.
Defined.

Lemma weighted_observable_derivative_is_covariance_witness :
  exists w_e avg_metric t,
    compute_we nnp_linear metric_first_x 350 1 fresh_instance outlier_states
               [] one_embedding PyNone = Ok (w_e, avg_metric)
    /\ tan w_e 0 0 = Finite t.
Proof.
  destruct (weighted_observable_derivative_is_covariance nnp_linear
              metric_first_x unit 350 1 fresh_instance outlier_states []
              one_embedding PyNone outlier_energies
              (map detach outlier_energies) [1; 2; 3; 20000000] 0 0)
    as (w_e & avg & H & Ht & _).
  - unfold BOLTZMAN. lra.
  - reflexivity.
  - exact (proj1 outlier_energies_finite).
  - exact (proj2 outlier_energies_finite).
  - reflexivity.
  - discriminate.
  - reflexivity.
  - exists w_e, avg. eexists. split; [exact H | exact Ht].
Defined.

(** ** What [compute_gradients] returns and leaves behind *)


Section Returned.
Variable nnp : list array -> list Z -> list position -> list nat
               -> result (list dual).
Variable metric : state -> state -> scalar.
Variable loss_fn : dual -> dual.
Variable opt_state : Type.
Variable set_to_none : bool.
Variable T : R.
Variable replicas : nat.
Implicit Type self : WeightedEnsemble opt_state.


(** X10.  Validation mode leaves the instance as it was, whether the loss
    can be computed or not; when it can, the gradients are [None], the
    returned loss is the value of the loss, and the dictionary reports it
    under the train key [loss_1] (the [val_] keys of [compute_loss] are not
    used) beside [val_avg_metric], a copy of [avg_metric]. *)
Theorem compute_gradients_validation_mode self crystal native_ensemble
    states embeddings grads_to_cpu :
  snd (compute_gradients nnp metric loss_fn set_to_none T replicas self
         crystal native_ensemble states embeddings grads_to_cpu (PyBool true))
  = self
  /\ match compute_loss nnp metric loss_fn T replicas self crystal states
             embeddings (PyBool false) with
     | Err e =>
         fst (compute_gradients nnp metric loss_fn set_to_none T replicas
                self crystal native_ensemble states embeddings grads_to_cpu
                (PyBool true)) = Err e
     | Ok (loss, _) =>
         exists values_dict,
           fst (compute_gradients nnp metric loss_fn set_to_none T replicas
                  self crystal native_ensemble states embeddings
                  grads_to_cpu (PyBool true))
           = Ok (None, val loss, values_dict)
           /\ dict_get values_dict "loss_1" = PyFloat (val loss)
           /\ dict_get values_dict "loss_2" = PyNone
           /\ dict_mem values_dict "val_loss_1" = false
           /\ dict_mem values_dict "val_avg_metric" = true
           /\ dict_get values_dict "val_avg_metric"
              = dict_get values_dict "avg_metric"
     end.
Proof.
  unfold compute_gradients. rewrite py_eq_true_false, py_eq_bool_refl.
  unfold compute_loss. rewrite py_eq_bool_refl.
  destruct (compute_we nnp metric T replicas self states crystal embeddings
              PyNone) as [[w_e avg]|e]; cbn [bind]; split; try reflexivity.
  eexists. split; [reflexivity|]. repeat split.
Qed.

End Returned.





(** ** What the clipping does guarantee *)

Lemma Rsum_squares_nonneg (rs : list R) : 0 <= Rsum (map (fun x => x * x) rs).
Proof. induction rs as [|r rs IH]; simpl; nra. Qed.

Lemma norm2_finite (rs : list R) :
  norm2 (map Finite rs) = Finite (sqrt (Rsum (map (fun x => x * x) rs))).
Proof.
  unfold norm2. rewrite map_map.
  change (fun x => fmul (Finite x) (Finite x)) with (fun x => Finite (x * x)).
  rewrite <- (map_map (fun x => x * x) Finite), fsum_finite.
  apply fsqrt_nonneg, Rsum_squares_nonneg.
Qed.

Lemma sqrt_scaled_squares (c : R) (rs : list R) :
  0 <= c ->
  sqrt (Rsum (map (fun x => x * x) (map (fun x => x * c) rs)))
  = c * sqrt (Rsum (map (fun x => x * x) rs)).
Proof.
  intros Hc. rewrite map_map.
  rewrite (map_ext _ (fun x => x * x * (c * c))) by (intros; ring).
  rewrite <- (map_map (fun x => x * x) (fun y => y * (c * c))), Rsum_scale.
  rewrite sqrt_mult by (try apply Rsum_squares_nonneg; nra).
  rewrite sqrt_square by assumption. ring.
Qed.

(** The scaling factor of [clip_grad_norm_] for a gradient of norm [N] and a
    threshold [t]. *)
Lemma clip_grad_norm_finite (rs : list R) (t : R) :
  clip_grad_norm_ (map Finite rs) (Finite t)
  = map Finite
      (map (fun x =>
              x * Rmin (t / (sqrt (Rsum (map (fun x => x * x) rs))
                             + 1 / 1000000)) 1) rs).
Proof.
  unfold clip_grad_norm_. rewrite norm2_finite.
  pose proof (sqrt_pos (Rsum (map (fun x => x * x) rs))) as HN.
  set (N := sqrt (Rsum (map (fun x => x * x) rs))) in *.
  cbn [fadd]. rewrite fdiv_finite by lra.
  assert (Hcoef : (if fgt (Finite (t / (N + 1 / 1000000))) (Finite 1)
                   then Finite 1 else Finite (t / (N + 1 / 1000000)))
                  = Finite (Rmin (t / (N + 1 / 1000000)) 1)).
  { unfold fgt, Rgtb, Rmin.
    destruct (Rlt_dec 1 (t / (N + 1 / 1000000))),
             (Rle_dec (t / (N + 1 / 1000000)) 1);
      try reflexivity; exfalso; lra. }
  rewrite Hcoef, !map_map. reflexivity.
Qed.

Lemma clipped_norm_bound (N t : R) :
  0 <= N -> 0 <= t ->
  0 <= Rmin (t / (N + 1 / 1000000)) 1
  /\ Rmin (t / (N + 1 / 1000000)) 1 * N <= t.
Proof.
  intros HN Ht.
  assert (He : 0 < N + 1 / 1000000) by lra.
  assert (Hq : 0 <= t / (N + 1 / 1000000)).
  { apply Rmult_le_pos; [exact Ht|]. apply Rlt_le, Rinv_0_lt_compat, He. }
  assert (Hqe : t / (N + 1 / 1000000) * (N + 1 / 1000000) = t)
    by (field; lra).
  unfold Rmin. destruct (Rle_dec (t / (N + 1 / 1000000)) 1) as [Hle|Hgt].
  - split; [exact Hq|]. nra.
  - split; [lra|]. nra.
Qed.

Lemma clip_grad_norm_small (rs : list R) (t : R) :
  sqrt (Rsum (map (fun x => x * x) rs)) + 1 / 1000000 <= t ->
  clip_grad_norm_ (map Finite rs) (Finite t) = map Finite rs.
Proof.
  intros Hsmall. rewrite clip_grad_norm_finite. f_equal.
  pose proof (sqrt_pos (Rsum (map (fun x => x * x) rs))) as HN.
  set (N := sqrt (Rsum (map (fun x => x * x) rs))) in *.
  assert (H1 : 1 <= t / (N + 1 / 1000000)).
  { apply Rmult_le_reg_r with (N + 1 / 1000000); [lra|].
    replace (t / (N + 1 / 1000000) * (N + 1 / 1000000)) with t
      by (field; lra).
    lra. }
  rewrite <- (map_id rs) at 2. apply map_ext. intros x.
  unfold Rmin. destruct (Rle_dec (t / (N + 1 / 1000000)) 1) as [Hle|Hgt];
    [|lra].
  replace (t / (N + 1 / 1000000)) with 1 by lra. lra.
Qed.

Section Clipping.
Variable opt_state : Type.
Variable max_len : nat.
Implicit Type self : WeightedEnsemble opt_state.

(** X12.  After [clip_gradients] with a finite threshold [t >= 0], every
    parameter that had a finite gradient has one of norm at most [t]; a
    gradient of norm at most [t - 1e-6] is left as it was; a parameter
    without gradient stays without; parameters and optimizer state are not
    touched. *)
Theorem clip_gradients_bounds_each_parameter self t :
  dynamic_max_grad_norm self = Finite t ->
  0 <= t ->
  Forall2
    (fun old new =>
       match old with
       | None => new = None
       | Some g =>
           exists g',
             new = Some g'
             /\ length g' = length g
             /\ forall rs,
                  g = map Finite rs ->
                  (exists m, norm2 g' = Finite m /\ 0 <= m <= t)
                  /\ (sqrt (Rsum (map (fun x => x * x) rs)) + 1 / 1000000 <= t
                      -> g' = g)
       end)
    (grad self) (grad (clip_gradients max_len self))
  /\ theta (clip_gradients max_len self) = theta self
  /\ optimizer (clip_gradients max_len self) = optimizer self.
Proof.
  intros Hthr Ht. split; [|split; reflexivity].
  unfold clip_gradients. cbn [grad]. rewrite Hthr.
  apply Forall2_map_r. intros [g|] _; [|reflexivity].
  eexists. split; [reflexivity|]. split.
  - unfold clip_grad_norm_. now rewrite length_map.
  - intros rs ->. split.
    + rewrite clip_grad_norm_finite, norm2_finite.
      pose proof (sqrt_pos (Rsum (map (fun x => x * x) rs))) as HN.
      destruct (clipped_norm_bound _ t HN Ht) as [Hc0 Hcb].
      rewrite sqrt_scaled_squares by exact Hc0.
      eexists. split; [reflexivity|]. split; [nra | exact Hcb].
    + apply clip_grad_norm_small.
Qed.
End Clipping.

Lemma clip_gradients_bounds_each_parameter_witness :
  theta (clip_gradients 50 two_param_instance) = theta two_param_instance
  /\ Forall2
       (fun old new =>
          match old with
          | None => new = None
          | Some g =>
              exists g',
                new = Some g'
                /\ length g' = length g
                /\ forall rs,
                     g = map Finite rs ->
                     (exists m, norm2 g' = Finite m /\ 0 <= m <= 4500)
                     /\ (sqrt (Rsum (map (fun x => x * x) rs)) + 1 / 1000000
                         <= 4500 -> g' = g)
          end)
       (grad two_param_instance) (grad (clip_gradients 50 two_param_instance)).
Proof.
  destruct (clip_gradients_bounds_each_parameter unit 50 two_param_instance
              4500 dynamic_max_grad_norm_seed ltac:(lra)) as (H & Hth & _).
  split; [exact Hth | exact H].
Defined.

Section ClippingOneParameter.
Variable opt_state : Type.
Variable max_len : nat.
Implicit Type self : WeightedEnsemble opt_state.

(** X13.  With a single parameter tensor, clipping each parameter is
    clipping the total: for a finite gradient and a finite threshold
    [t >= 0], the total gradient norm after [clip_gradients] is at most
    [t]. *)
Theorem clip_gradients_single_parameter_is_global self rs t :
  grad self = [Some (map Finite rs)] ->
  dynamic_max_grad_norm self = Finite t ->
  0 <= t ->
  exists m,
    get_grad_norm (grad (clip_gradients max_len self)) = Finite m
    /\ 0 <= m <= t.
Proof.
  intros Hg Hthr Ht. unfold clip_gradients. cbn [grad].
  rewrite Hthr, Hg. cbn [map]. unfold get_grad_norm. cbn [flat_map app].
  rewrite clip_grad_norm_finite, norm2_finite.
  pose proof (sqrt_pos (Rsum (map (fun x => x * x) rs))) as HN.
  destruct (clipped_norm_bound _ t HN Ht) as [Hc0 Hcb].
  rewrite sqrt_scaled_squares by exact Hc0.
  rewrite norm2_single by nra.
  eexists. split; [reflexivity|]. split; [nra | exact Hcb].
Qed.

(** X14.  The history receives the smaller of the total gradient norm before
    clipping and the threshold (both finite): never more than the
    threshold. *)
Theorem clip_gradients_appends_min_of_norm_and_threshold self N t :
  get_grad_norm (grad self) = Finite N ->
  dynamic_max_grad_norm self = Finite t ->
  gradnorm_queue (clip_gradients max_len self)
  = queue_add max_len (gradnorm_queue self) (Finite (Rmin N t)).
Proof.
  intros HN Ht. unfold clip_gradients. cbn [gradnorm_queue].
  rewrite HN, Ht. unfold fgt, Rgtb, Rmin.
  destruct (Rlt_dec t N), (Rle_dec N t); try reflexivity; exfalso; lra.
Qed.
End ClippingOneParameter.

Lemma clip_gradients_single_parameter_is_global_witness :
  exists m,
    get_grad_norm (grad (clip_gradients 50 one_param_large_grad)) = Finite m
    /\ 0 <= m <= 4500.
Proof.
  apply (clip_gradients_single_parameter_is_global unit 50
           one_param_large_grad [6000; 8000] 4500 eq_refl).
  - unfold dynamic_max_grad_norm. cbn [gradnorm_queue one_param_large_grad].
    rewrite queue_mean_seed, queue_std_seed. simpl. f_equal. lra.
  - lra.
Defined.

Lemma clip_gradients_appends_min_of_norm_and_threshold_witness :
  gradnorm_queue (clip_gradients 50 two_param_instance)
  = queue_add 50 [Finite 3000] (Finite (Rmin (sqrt 32000000) 4500)).
Proof.
  exact (clip_gradients_appends_min_of_norm_and_threshold unit 50
           two_param_instance (sqrt 32000000) 4500 get_grad_norm_two_params
           dynamic_max_grad_norm_seed).
Defined.

(** ** Applying gradients *)

Lemma assign_grads_length (gs slots : list (option array)) :
  length (assign_grads gs slots) = length slots.
Proof.
  revert slots. induction gs as [|g gs IH]; intros [|s slots];
    try reflexivity.
  simpl. now rewrite IH.
Qed.

Lemma assign_grads_nth (gs slots : list (option array)) :
  forall i,
    nth i (assign_grads gs slots) None
    = match nth i gs None with
      | Some g => if Nat.ltb i (length slots) then Some g else None
      | None => nth i slots None
      end.
Proof.
  revert slots. induction gs as [|g gs IH]; intros slots i.
  - simpl. destruct i; reflexivity.
  - destruct slots as [|s slots].
    + simpl. destruct i; [destruct g | destruct (nth i gs None)]; reflexivity.
    + destruct i as [|i]; [destruct g; reflexivity|].
      cbn [assign_grads nth length]. rewrite IH.
      destruct (nth i gs None); reflexivity.
Qed.

Lemma assign_grads_all_some (gs : list (option array)) :
  forall slots,
    Forall (fun g => g <> None) gs ->
    length gs = length slots ->
    assign_grads gs slots = gs.
Proof.
  induction gs as [|g gs IH]; intros [|s slots] Hall Hlen;
    try discriminate; [reflexivity|].
  inversion Hall as [|g' gs' Hg Hrest]; subst.
  simpl. rewrite (IH slots Hrest) by (now injection Hlen).
  destruct g; [reflexivity | congruence].
Qed.

Section Applying.
Variable opt_state : Type.
Variable optimizer_step : list array -> list (option array) -> opt_state
                          -> list array * opt_state.
Variable max_len : nat.
Implicit Type self : WeightedEnsemble opt_state.

(** X15.  The gradient slots that [apply_gradients] hands to the clipping
    keep their number; slot [i] is the gradient given for parameter [i] when
    there is one that is not [None], and the slot of before otherwise, so
    gradients given beyond the last parameter are dropped. *)
Theorem assign_grads_overwrites_given_slots (gradients slots
    : list (option array)) (i : nat) :
  length (assign_grads gradients slots) = length slots
  /\ nth i (assign_grads gradients slots) None
     = match nth i gradients None with
       | Some g => if Nat.ltb i (length slots) then Some g else None
       | None => nth i slots None
       end.
Proof. split; [apply assign_grads_length | apply assign_grads_nth]. Qed.

(** X16.  Without gradients ([None] or an empty list) [apply_gradients]
    clips nothing and records nothing: it is the optimizer step alone, on
    the gradients already in the slots, and the history is as before. *)
Theorem apply_gradients_without_gradients self gradients :
  gradients = None \/ gradients = Some [] ->
  apply_gradients optimizer_step max_len self gradients
  = mkWE (fst (optimizer_step (theta self) (grad self) (optimizer self)))
         (grad self)
         (snd (optimizer_step (theta self) (grad self) (optimizer self)))
         (gradnorm_queue self).
Proof.
  intros [-> | ->]; unfold apply_gradients;
    destruct (optimizer_step (theta self) (grad self) (optimizer self));
    reflexivity.
Qed.

(** X17.  When a gradient is given for every parameter, what the slots held
    before does not matter: two instances that differ in their gradient
    slots only are the same after [apply_gradients], and the step is taken
    on the given gradients, each clipped against the threshold of the
    history. *)
Theorem apply_gradients_replaces_all_slots self self' gs :
  gs <> [] ->
  Forall (fun g => g <> None) gs ->
  length gs = length (grad self) ->
  length gs = length (grad self') ->
  theta self' = theta self ->
  optimizer self' = optimizer self ->
  gradnorm_queue self' = gradnorm_queue self ->
  apply_gradients optimizer_step max_len self' (Some gs)
  = apply_gradients optimizer_step max_len self (Some gs)
  /\ grad (apply_gradients optimizer_step max_len self (Some gs))
     = map (fun g => match g with
                     | Some g0 =>
                         Some (clip_grad_norm_ g0 (dynamic_max_grad_norm self))
                     | None => None
                     end) gs.
Proof.
  intros Hne Hall Hlen Hlen' Hth Hopt Hq.
  unfold apply_gradients.
  destruct gs as [|g gs]; [congruence|].
  rewrite (assign_grads_all_some (g :: gs) (grad self) Hall Hlen).
  rewrite (assign_grads_all_some (g :: gs) (grad self') Hall Hlen').
  rewrite Hth, Hopt, Hq.
  split.
  - reflexivity.
  - destruct (optimizer_step _ _ _). reflexivity.
Qed.
End Applying.

Lemma apply_gradients_without_gradients_witness :
  apply_gradients keep_params 50 two_param_instance (Some [])
  = two_param_instance.
Proof.
  exact (apply_gradients_without_gradients unit keep_params 50
           two_param_instance (Some []) (or_intror eq_refl)).
Defined.

Lemma apply_gradients_replaces_all_slots_witness :
  apply_gradients keep_params 50 instance_with_grad (Some [Some [Finite 2]])
  = apply_gradients keep_params 50 fresh_instance (Some [Some [Finite 2]]).
Proof.
  apply (apply_gradients_replaces_all_slots unit keep_params 50
           fresh_instance instance_with_grad [Some [Finite 2]]);
    try reflexivity; try discriminate.
  repeat constructor. discriminate.
Defined.

(** * The learner's epoch statistics *)

Lemma mean_nonempty (l : list scalar) :
  l <> [] -> mean l = Returned (fmean l).
Proof. destruct l; [congruence | reflexivity]. Qed.

Lemma length_nonempty (A B : Type) (l : list A) (l' : list B) :
  length l = length l' -> l <> [] -> l' <> [].
Proof. destruct l, l'; simpl; congruence. Qed.

Lemma dict_get_set_same (d : dict) (key : string) (v : pyval) :
  dict_get (dict_set d key v) key = v.
Proof.
  induction d as [|[k w] d IH]; simpl.
  - now rewrite String.eqb_refl.
  - destruct (String.eqb k key) eqn:Hk; simpl; now rewrite Hk.
Qed.

Lemma dict_get_set_other (d : dict) (key key' : string) (v : pyval) :
  String.eqb key' key = false ->
  dict_get (dict_set d key' v) key = dict_get d key.
Proof.
  intros Hne. induction d as [|[k w] d IH]; simpl.
  - now rewrite Hne.
  - destruct (String.eqb k key') eqn:Hk; simpl.
    + apply String.eqb_eq in Hk. subst k. now rewrite Hne.
    + destruct (String.eqb k key); [reflexivity | exact IH].
Qed.

Section LearnerProperties.
Variable worker_step : Z -> Z -> pyval -> list (string * scalar).
Variable current_lr : scalar.

(** X18.  [Learner.step] that returns has added one loss and one metric to
    the lists of its mode and nothing to the others, so the lists stay
    paired; [val == True] alone selects the validation lists. *)
Theorem learner_step_appends_one_pair (self self' : Learner) val_flag :
  learner_step worker_step self val_flag = (Returned tt, self') ->
  exists x y,
    (if py_eq val_flag (PyBool true)
     then val_losses self' = val_losses self ++ [x]
          /\ val_avg_metrics self' = val_avg_metrics self ++ [y]
          /\ train_losses self' = train_losses self
          /\ train_avg_metrics self' = train_avg_metrics self
     else train_losses self' = train_losses self ++ [x]
          /\ train_avg_metrics self' = train_avg_metrics self ++ [y]
          /\ val_losses self' = val_losses self
          /\ val_avg_metrics self' = val_avg_metrics self)
    /\ (paired self -> paired self')
    /\ l_epoch self' = l_epoch self
    /\ results_dict self' = results_dict self.
Proof.
  unfold learner_step.
  set (info := worker_step (l_steps self) (l_output_period self) val_flag).
  destruct (py_eq val_flag (PyBool true)).
  - destruct (info_get info "val_loss") as [x|e]; [|discriminate].
    destruct (info_get info "val_avg_metric") as [y|e]; [|discriminate].
    intros H. injection H as <-. exists x, y. cbn.
    repeat split; try reflexivity.
    + apply H.
    + destruct H as [_ H]. cbn. rewrite !length_app, H. reflexivity.
  - destruct (info_get info "train_loss") as [x|e]; [|discriminate].
    destruct (info_get info "train_avg_metric") as [y|e]; [|discriminate].
    intros H. injection H as <-. exists x, y. cbn.
    repeat split; try reflexivity.
    + destruct H as [H _]. cbn. rewrite !length_app, H. reflexivity.
    + apply H.
Qed.

(** X19.  With paired lists and at least one train step recorded,
    [compute_epoch_stats] raises nothing; it stores the means of the train
    lists, moves to the next epoch, and empties the four lists. *)
Theorem compute_epoch_stats_returns (self : Learner) :
  paired self ->
  train_losses self <> [] ->
  exists self',
    compute_epoch_stats current_lr self = (Returned tt, self')
    /\ train_loss self' = Some (fmean (train_losses self))
    /\ train_avg_metric self' = Some (fmean (train_avg_metrics self))
    /\ l_epoch self' = (l_epoch self + 1)%Z
    /\ dict_get (results_dict self') "epoch" = PyInt (l_epoch self + 1)
    /\ train_losses self' = [] /\ train_avg_metrics self' = []
    /\ val_losses self' = [] /\ val_avg_metrics self' = [].
Proof.
  intros [Ht Hv] Hne. unfold compute_epoch_stats.
  rewrite (mean_nonempty _ Hne).
  rewrite (mean_nonempty _ (length_nonempty _ _ _ _ Ht Hne)).
  unfold epoch_val_stats.
  destruct (in_keys "val_loss" (l_keys self)).
  - destruct (val_losses self) as [|v vs] eqn:Hvl.
    + eexists. split; [reflexivity|]. cbn. repeat split.
      rewrite dict_get_set_other by reflexivity.
      destruct (in_keys "steps" (l_keys self)), (in_keys "level" (l_keys self));
        repeat (rewrite dict_get_set_other by reflexivity);
        apply dict_get_set_same.
    + assert (Hvm : val_avg_metrics self <> [])
        by (apply (length_nonempty _ _ (v :: vs)); [exact Hv | discriminate]).
      rewrite (mean_nonempty _ Hvm). cbn [mean].
      eexists. split; [reflexivity|]. cbn. repeat split.
      rewrite !dict_get_set_other by reflexivity.
      destruct (in_keys "steps" (l_keys self)), (in_keys "level" (l_keys self));
        repeat (rewrite dict_get_set_other by reflexivity);
        apply dict_get_set_same.
  - eexists. split; [reflexivity|]. cbn. repeat split.
    destruct (in_keys "steps" (l_keys self)), (in_keys "level" (l_keys self));
      repeat (rewrite dict_get_set_other by reflexivity);
      apply dict_get_set_same.
Qed.

Lemma compute_epoch_stats_second_call (self self' : Learner) :
  compute_epoch_stats current_lr self = (Returned tt, self') ->
  train_losses self' = [] /\ train_avg_metrics self' = []
  /\ val_losses self' = [] /\ val_avg_metrics self' = [].
Proof.
  unfold compute_epoch_stats.
  destruct (mean (train_losses self)); [|discriminate].
  destruct (mean (train_avg_metrics self)); [|discriminate].
  destruct (epoch_val_stats self _) as [[[vl vm] d]|e]; [|discriminate].
  intros H. injection H as <-. repeat split.
Qed.

(** X20.  Whenever [compute_epoch_stats] has returned, the lists are empty:
    a second call without a step in between raises [StatisticsError] and
    changes nothing, and [get_batch_avg_metric] raises [IndexError] for
    either mode. *)
Theorem compute_epoch_stats_twice_raises (self self' : Learner) val_flag :
  compute_epoch_stats current_lr self = (Returned tt, self') ->
  compute_epoch_stats current_lr self' = (Raised StatisticsError, self')
  /\ get_batch_avg_metric self' val_flag = Raised ListIndexError.
Proof.
  intros H. apply compute_epoch_stats_second_call in H.
  destruct H as (H1 & H2 & H3 & H4). split.
  - unfold compute_epoch_stats. now rewrite H1.
  - unfold get_batch_avg_metric. rewrite H2, H4.
    destruct (py_eq val_flag (PyBool false)); reflexivity.
Qed.

(** X21.  An epoch without validation step leaves the stored validation
    loss stale: with the key [val_loss] among the keys, [results_dict]
    reports [None] for it, while [get_val_loss] goes on returning the value
    of an earlier epoch. *)
Theorem compute_epoch_stats_keeps_stale_val_loss (self self' : Learner) :
  in_keys "val_loss" (l_keys self) = true ->
  val_losses self = [] ->
  compute_epoch_stats current_lr self = (Returned tt, self') ->
  dict_get (results_dict self') "val_loss" = PyNone
  /\ get_val_loss self' = get_val_loss self
  /\ val_avg_metric self' = val_avg_metric self.
Proof.
  intros Hk Hvl. unfold compute_epoch_stats.
  destruct (mean (train_losses self)); [|discriminate].
  destruct (mean (train_avg_metrics self)); [|discriminate].
  unfold epoch_val_stats. rewrite Hk, Hvl.
  intros H. injection H as <-. cbn. repeat split.
  apply dict_get_set_same.
Qed.
End LearnerProperties.

Lemma py_eq_false_true : py_eq (PyBool false) (PyBool true) = false.
Proof. unfold py_eq, py_number, feq. apply Reqb_neq. lra. Qed.

Lemma learner_step_train_example :
  learner_step train_worker learner_example (PyBool false)
  = (Returned tt,
     mkLearner 100 10 (Finite 1) ["epoch"; "train_loss"; "val_loss"]%string
       [Finite 2; Finite 2] [Finite 3; Finite 3] [] []
       (Some (Finite 4)) (Some (Finite (1 / 2))) (Some (Finite 5)) None
       0 1 (results_dict learner_example)).
Proof. unfold learner_step. rewrite py_eq_false_true. reflexivity. Qed.

Lemma learner_step_appends_one_pair_witness :
  exists x y,
    train_losses (snd (learner_step train_worker learner_example
                         (PyBool false)))
    = train_losses learner_example ++ [x]
    /\ train_avg_metrics (snd (learner_step train_worker learner_example
                                 (PyBool false)))
       = train_avg_metrics learner_example ++ [y].
Proof.
  destruct (learner_step_appends_one_pair train_worker learner_example _
              (PyBool false) learner_step_train_example)
    as (x & y & Hl & _).
  rewrite py_eq_false_true in Hl. destruct Hl as (H1 & H2 & _).
  exists x, y. rewrite learner_step_train_example. split; assumption.
Defined.

Lemma learner_example_paired : paired learner_example.
Proof. split; reflexivity. Qed.

Lemma compute_epoch_stats_returns_witness :
  exists self',
    compute_epoch_stats (Finite (1 / 1000)) learner_example
    = (Returned tt, self')
    /\ l_epoch self' = 2%Z
    /\ train_losses self' = [].
Proof.
  destruct (compute_epoch_stats_returns (Finite (1 / 1000)) learner_example
              learner_example_paired ltac:(discriminate))
    as (self' & H & _ & _ & He & _ & Hl & _).
  exists self'. repeat split; assumption.
Defined.

Lemma compute_epoch_stats_example :
  exists self',
    compute_epoch_stats (Finite (1 / 1000)) learner_example
    = (Returned tt, self').
Proof. eexists. reflexivity. Qed.

Lemma compute_epoch_stats_twice_raises_witness :
  exists self',
    compute_epoch_stats (Finite (1 / 1000)) learner_example
    = (Returned tt, self')
    /\ compute_epoch_stats (Finite (1 / 1000)) self'
       = (Raised StatisticsError, self').
Proof.
  destruct compute_epoch_stats_example as (self' & H).
  exists self'. split; [exact H|].
  exact (proj1 (compute_epoch_stats_twice_raises (Finite (1 / 1000))
                  learner_example self' (PyBool false) H)).
Defined.

Lemma compute_epoch_stats_keeps_stale_val_loss_witness :
  exists self',
    compute_epoch_stats (Finite (1 / 1000)) learner_example
    = (Returned tt, self')
    /\ dict_get (results_dict self') "val_loss" = PyNone
    /\ get_val_loss self' = Some (Finite (1 / 2)).
Proof.
  destruct compute_epoch_stats_example as (self' & H).
  destruct (compute_epoch_stats_keeps_stale_val_loss (Finite (1 / 1000))
              learner_example self' eq_refl eq_refl H) as (H1 & H2 & _).
  exists self'. repeat split; assumption.
Defined.

(** * Bond parameters *)

(** ** Dictionaries as item lists *)

Lemma lookup_store (V : Type) (d : list (string * V)) (k k' : string) (v : V) :
  lookup (store d k v) k'
  = if String.eqb k k' then Some v else lookup d k'.
Proof.
  induction d as [|[k0 w] d IH]; simpl.
  - reflexivity.
  - destruct (String.eqb k0 k) eqn:H0; simpl.
    + apply String.eqb_eq in H0. subst k0.
      destruct (String.eqb k k'); reflexivity.
    + rewrite IH. destruct (String.eqb k0 k') eqn:H1; [|reflexivity].
      apply String.eqb_eq in H1. subst k0.
      rewrite String.eqb_sym in H0. now rewrite H0.
Qed.

Lemma lookup_in_keys (V : Type) (d : list (string * V)) (k : string) :
  In k (map fst d) <-> lookup d k <> None.
Proof.
  induction d as [|[k0 w] d IH]; simpl.
  - split; [contradiction | congruence].
  - destruct (String.eqb k0 k) eqn:H0.
    + apply String.eqb_eq in H0. split; [discriminate | now left].
    + apply String.eqb_neq in H0. rewrite <- IH. split.
      * intros [H | H]; [congruence | exact H].
      * intros H. now right.
Qed.

Lemma store_keys_existing (V : Type) (d : list (string * V)) (k : string)
    (v : V) :
  In k (map fst d) -> map fst (store d k v) = map fst d.
Proof.
  induction d as [|[k0 w] d IH]; simpl; [contradiction|].
  intros Hin. destruct (String.eqb k0 k) eqn:H0; simpl; [reflexivity|].
  f_equal. apply IH. destruct Hin as [H | H]; [|exact H].
  apply String.eqb_neq in H0. congruence.
Qed.

Lemma lookup_app_last (V : Type) (l : list (string * V)) (k0 : string)
    (v0 : V) (k : string) :
  lookup (l ++ [(k0, v0)]) k
  = match lookup l k with
    | Some v => Some v
    | None => if String.eqb k0 k then Some v0 else None
    end.
Proof.
  induction l as [|[k1 w] l IH]; simpl; [reflexivity|].
  destruct (String.eqb k1 k); [reflexivity | exact IH].
Qed.

Lemma lookup_fold_store (V : Type) (pairs : list (string * V)) :
  forall (d : list (string * V)) (k : string),
    lookup (fold_left (fun d kv => store d (fst kv) (snd kv)) pairs d) k
    = match lookup (rev pairs) k with
      | Some v => Some v
      | None => lookup d k
      end.
Proof.
  induction pairs as [|[k0 v0] pairs IH]; intros d k; [reflexivity|].
  cbn [fold_left rev fst snd]. rewrite IH, lookup_app_last, lookup_store.
  destruct (lookup (rev pairs) k); [reflexivity|].
  destruct (String.eqb k0 k); reflexivity.
Qed.

Lemma lookup_dict_of_pairs (V : Type) (pairs : list (string * V))
    (k : string) :
  lookup (dict_of_pairs pairs) k = lookup (rev pairs) k.
Proof.
  unfold dict_of_pairs. rewrite lookup_fold_store.
  destruct (lookup (rev pairs) k); reflexivity.
Qed.

(** X22.  [dict(pairs)] looks a key up as the reversed list of pairs does:
    of several pairs with the same key the last one counts.  So
    [create_bonds_dict] gives a bond name that occurs more than once along
    the chain the parameters of its last occurrence. *)
Theorem create_bonds_dict_keeps_last_occurrence (atomtype : list string)
    (bond_params_rows : list (list scalar)) (bond : string) :
  lookup (create_bonds_dict atomtype bond_params_rows) bond
  = lookup
      (rev (combine (get_mol_bonds atomtype)
              (map (fun values =>
                      dict_of_pairs (combine ["k0"; "req"]%string values))
                   bond_params_rows)))
      bond.
Proof.
  unfold create_bonds_dict. apply lookup_dict_of_pairs.
Qed.

(** ** Extracting the parameters of a molecule *)

Lemma lookup_not_in_keys (V : Type) (d : list (string * V)) (k : string) :
  ~ In k (map fst d) -> lookup d k = None.
Proof.
  intros H. destruct (lookup d k) eqn:Hl; [|reflexivity].
  exfalso. apply H, lookup_in_keys. congruence.
Qed.

(** The inner loop over distinct keys finds the bond at most once. *)
Lemma bond_matches_fold (all_bonds_dict : bonds_dict) (bond : string)
    (keys : list string) :
  NoDup keys ->
  forall st : nat * list (nat * bonds_dict),
    fold_left
      (fun (st : nat * list (nat * bonds_dict)) key =>
         if String.eqb bond key
         then let i := S (fst st) in
              (i, snd st
                  ++ [(i, [(key, match lookup all_bonds_dict key with
                                 | Some v => v
                                 | None => []
                                 end)])])
         else st)
      keys st
    = if existsb (String.eqb bond) keys
      then (S (fst st),
            snd st ++ [(S (fst st),
                        [(bond, match lookup all_bonds_dict bond with
                                | Some v => v
                                | None => []
                                end)])])
      else st.
Proof.
  induction keys as [|key keys IH]; intros Hnd st; [reflexivity|].
  inversion Hnd as [|k ks Hnotin Hnd']; subst.
  cbn [fold_left existsb]. destruct (String.eqb bond key) eqn:Hk.
  - apply String.eqb_eq in Hk. subst key. cbn [orb].
    rewrite (IH Hnd').
    assert (Hex : existsb (String.eqb bond) keys = false).
    { destruct (existsb (String.eqb bond) keys) eqn:He; [|reflexivity].
      apply existsb_exists in He as (x & Hx & Hbx).
      apply String.eqb_eq in Hbx. subst x. contradiction. }
    now rewrite Hex.
  - cbn [orb]. apply (IH Hnd').
Qed.

Lemma existsb_keys_lookup (V : Type) (d : list (string * V)) (k : string) :
  existsb (String.eqb k) (map fst d)
  = match lookup d k with Some _ => true | None => false end.
Proof.
  induction d as [|[k0 w] d IH]; simpl; [reflexivity|].
  rewrite String.eqb_sym. destruct (String.eqb k0 k); [reflexivity | exact IH].
Qed.

Lemma bond_matches_found (all_bonds_dict : bonds_dict) (bond : string)
    (st : nat * list (nat * bonds_dict)) :
  NoDup (map fst all_bonds_dict) ->
  bond_matches all_bonds_dict bond st
  = match lookup all_bonds_dict bond with
    | Some v => (S (fst st), snd st ++ [(S (fst st), [(bond, v)])])
    | None => st
    end.
Proof.
  intros Hnd. unfold bond_matches.
  etransitivity; [apply (bond_matches_fold all_bonds_dict bond _ Hnd st)|].
  rewrite existsb_keys_lookup.
  destruct (lookup all_bonds_dict bond); reflexivity.
Qed.

Lemma get_bond_params_rows (all_bonds_dict : bonds_dict) :
  NoDup (map fst all_bonds_dict) ->
  forall (bonds : list string) (st : nat * list (nat * bonds_dict)),
    flat_map (fun entry : nat * bonds_dict =>
                map (fun kv : string * bond_params => map snd (snd kv))
                    (snd entry))
             (snd (fold_left
                     (fun st bond => bond_matches all_bonds_dict bond st)
                     bonds st))
    = flat_map (fun entry : nat * bonds_dict =>
                  map (fun kv : string * bond_params => map snd (snd kv))
                      (snd entry))
               (snd st)
      ++ flat_map (fun bond =>
                     match lookup all_bonds_dict bond with
                     | Some v => [map snd v]
                     | None => []
                     end) bonds.
Proof.
  intros Hnd. induction bonds as [|bond bonds IH]; intros st.
  - simpl. now rewrite app_nil_r.
  - cbn [fold_left flat_map]. rewrite IH.
    rewrite (bond_matches_found all_bonds_dict bond st Hnd).
    destruct (lookup all_bonds_dict bond) as [v|]; [|reflexivity].
    cbn [snd]. rewrite flat_map_app. cbn [flat_map map snd app].
    now rewrite <- app_assoc.
Qed.

(** X23.  [extract_bond_params] returns one row per bond of the chain that
    the force field knows, in the order of the chain, made of the values of
    that bond's parameters; a bond the force field does not know is left out
    without notice. *)
Theorem extract_bond_params_rows (all_bonds_dict : bonds_dict)
    (atomtype : list string) :
  NoDup (map fst all_bonds_dict) ->
  extract_bond_params all_bonds_dict atomtype
  = flat_map (fun bond =>
                match lookup all_bonds_dict bond with
                | Some params => [map snd params]
                | None => []
                end)
             (get_mol_bonds atomtype)
  /\ (length (extract_bond_params all_bonds_dict atomtype)
      <= length atomtype - 1)%nat.
Proof.
  intros Hnd.
  assert (Heq : extract_bond_params all_bonds_dict atomtype
                = flat_map (fun bond =>
                              match lookup all_bonds_dict bond with
                              | Some params => [map snd params]
                              | None => []
                              end)
                           (get_mol_bonds atomtype)).
  { unfold extract_bond_params, get_bond_params.
    cbv zeta. rewrite (get_bond_params_rows all_bonds_dict Hnd). reflexivity. }
  split; [exact Heq|]. rewrite Heq.
  assert (Hlen : forall bonds : list string,
             (length (flat_map (fun bond =>
                                  match lookup all_bonds_dict bond with
                                  | Some params => [map snd params]
                                  | None => []
                                  end) bonds) <= length bonds)%nat).
  { induction bonds as [|b bonds IH]; simpl; [lia|].
    rewrite length_app. destruct (lookup all_bonds_dict b); simpl; lia. }
  specialize (Hlen (get_mol_bonds atomtype)).
  unfold get_mol_bonds in Hlen at 2. now rewrite length_map, length_seq in Hlen.
Qed.

Lemma ff_example_keys : NoDup (map fst ff_example).
Proof.
  repeat constructor; simpl; intros H;
    repeat (destruct H as [H | H]; [discriminate|]); exact H.
Qed.

Lemma extract_bond_params_rows_witness :
  extract_bond_params ff_example chain_example = [[Finite 1; Finite 2]].
Proof.
  exact (eq_trans
           (proj1 (extract_bond_params_rows ff_example chain_example
                     ff_example_keys))
           eq_refl).
Defined.

(** ** Writing parameters back *)

Lemma store_idempotent (V : Type) (d : list (string * V)) (k : string)
    (v : V) :
  store (store d k v) k v = store d k v.
Proof.
  induction d as [|[k0 w] d IH]; simpl.
  - now rewrite String.eqb_refl.
  - destruct (String.eqb k0 k) eqn:H0; simpl; rewrite H0;
      [reflexivity | now rewrite IH].
Qed.

Lemma insert_bond_fold (mol_bonds_dict : bonds_dict) (bond : string)
    (keys : list string) :
  forall d : bonds_dict,
    fold_left
      (fun (d : bonds_dict) key =>
         if String.eqb bond key
         then store d key (match lookup mol_bonds_dict key with
                           | Some v => v
                           | None => []
                           end)
         else d)
      keys d
    = if existsb (String.eqb bond) keys
      then store d bond (match lookup mol_bonds_dict bond with
                         | Some v => v
                         | None => []
                         end)
      else d.
Proof.
  induction keys as [|key keys IH]; intros d; [reflexivity|].
  cbn [fold_left existsb]. destruct (String.eqb bond key) eqn:Hk.
  - apply String.eqb_eq in Hk. subst key. cbn [orb]. rewrite IH.
    destruct (existsb (String.eqb bond) keys); [|reflexivity].
    apply store_idempotent.
  - cbn [orb]. apply IH.
Qed.

Lemma insert_bond_found (mol_bonds_dict : bonds_dict) (bond : string)
    (d : bonds_dict) :
  insert_bond mol_bonds_dict bond d
  = match lookup d bond with
    | Some _ => store d bond (match lookup mol_bonds_dict bond with
                              | Some v => v
                              | None => []
                              end)
    | None => d
    end.
Proof.
  unfold insert_bond.
  etransitivity; [apply (insert_bond_fold mol_bonds_dict bond _ d)|].
  rewrite existsb_keys_lookup. destruct (lookup d bond); reflexivity.
Qed.

Lemma insert_bonds_fold (mol_bonds_dict : bonds_dict) (bonds : list string) :
  forall d : bonds_dict,
    map fst (fold_left (fun d bond => insert_bond mol_bonds_dict bond d)
                       bonds d)
    = map fst d
    /\ forall key,
         lookup (fold_left (fun d bond => insert_bond mol_bonds_dict bond d)
                           bonds d) key
         = match lookup d key with
           | None => None
           | Some old =>
               if existsb (String.eqb key) bonds
               then Some (match lookup mol_bonds_dict key with
                          | Some v => v
                          | None => []
                          end)
               else Some old
           end.
Proof.
  induction bonds as [|b bonds IH]; intros d.
  - split; [reflexivity|]. intros key. simpl. destruct (lookup d key); reflexivity.
  - cbn [fold_left]. destruct (IH (insert_bond mol_bonds_dict b d)) as [Hk Hl].
    rewrite insert_bond_found in Hk, Hl. rewrite insert_bond_found. split.
    + rewrite Hk. destruct (lookup d b) eqn:Hb; [|reflexivity].
      apply store_keys_existing, lookup_in_keys. congruence.
    + intros key. rewrite Hl. cbn [existsb].
      destruct (lookup d b) eqn:Hb.
      * rewrite lookup_store. rewrite (String.eqb_sym key b).
        destruct (String.eqb b key) eqn:Hbk.
        -- apply String.eqb_eq in Hbk. subst key. rewrite Hb. cbn [orb].
           destruct (existsb (String.eqb b) bonds); reflexivity.
        -- cbn [orb]. reflexivity.
      * rewrite (String.eqb_sym key b).
        destruct (String.eqb b key) eqn:Hbk; [|reflexivity].
        apply String.eqb_eq in Hbk. subst key. now rewrite Hb.
Qed.

(** X24.  [insert_bond_params] never adds a bond to the force field: the
    bond names and their order stay.  A bond of the force field that occurs
    in the molecule gets the molecule's parameters, any other keeps its
    own. *)
Theorem insert_bond_params_updates_known_bonds (atomtype : list string)
    (bond_params_rows : list (list scalar)) (all_bonds_dict : bonds_dict)
    (key : string) :
  map fst (insert_bond_params atomtype bond_params_rows all_bonds_dict)
  = map fst all_bonds_dict
  /\ lookup (insert_bond_params atomtype bond_params_rows all_bonds_dict) key
     = match lookup all_bonds_dict key with
       | None => None
       | Some old =>
           match lookup (create_bonds_dict atomtype bond_params_rows) key with
           | Some params => Some params
           | None => Some old
           end
       end.
Proof.
  unfold insert_bond_params. cbv zeta.
  destruct (insert_bonds_fold (create_bonds_dict atomtype bond_params_rows)
              (map fst (create_bonds_dict atomtype bond_params_rows))
              all_bonds_dict) as [Hk Hl].
  split; [exact Hk|]. rewrite Hl, existsb_keys_lookup.
  destruct (lookup all_bonds_dict key); [|reflexivity].
  destruct (lookup (create_bonds_dict atomtype bond_params_rows) key);
    reflexivity.
Qed.

(** ** Scaling and setting the bond parameters of a force field *)

Lemma set_bond_set (k0 req : scalar) (p : bond_params) :
  set_bond k0 req "set" p = Returned (store (store p "k0" k0) "req" req).
Proof. reflexivity. Qed.

Lemma set_ff_set (bonds : bonds_dict) (k0 req : scalar) :
  set_ff_bond_parameters bonds k0 req "set"
  = (Returned tt,
     map (fun kp : string * bond_params =>
            (fst kp, store (store (snd kp) "k0" k0) "req" req)) bonds).
Proof.
  induction bonds as [|[key p] bonds IH]; [reflexivity|].
  cbn [set_ff_bond_parameters]. rewrite set_bond_set, IH. reflexivity.
Qed.

Lemma store_set_twice (p : bond_params) (k0 req : scalar) :
  store (store (store (store p "k0" k0) "req" req) "k0" k0) "req" req
  = store (store p "k0" k0) "req" req.
Proof.
  induction p as [|[k w] p IH]; [reflexivity|].
  cbn [store]. destruct (String.eqb k "k0") eqn:H0.
  - apply String.eqb_eq in H0. subst k. cbn [store String.eqb Ascii.eqb
      Bool.eqb andb]. cbn. now rewrite !store_idempotent.
  - cbn [store]. destruct (String.eqb k "req") eqn:H1.
    + cbn [store]. rewrite H0. cbn [store]. rewrite H1.
      f_equal. clear IH.
      induction p as [|[k' w'] p IH']; [reflexivity|].
      cbn [store]. destruct (String.eqb k' "k0") eqn:H2;
        cbn [store]; rewrite H2; [reflexivity | now rewrite IH'].
    + cbn [store]. rewrite H0. cbn [store]. rewrite H1. now rewrite IH.
Qed.

(** X25.  [set_ff_bond_parameters] with ["set"] raises nothing, keeps the
    bond names, leaves every bond with the given [k0] and [req], and doing
    it twice is the same as doing it once; with a [todo] that is neither
    ["mult"] nor ["set"] it leaves the force field as it is. *)
Theorem set_ff_bond_parameters_set_and_other (bonds : bonds_dict)
    (k0 req : scalar) (todo : string) :
  (exists bonds',
     set_ff_bond_parameters bonds k0 req "set" = (Returned tt, bonds')
     /\ map fst bonds' = map fst bonds
     /\ Forall (fun kp : string * bond_params =>
                  lookup (snd kp) "k0" = Some k0
                  /\ lookup (snd kp) "req" = Some req) bonds'
     /\ set_ff_bond_parameters bonds' k0 req "set" = (Returned tt, bonds'))
  /\ (String.eqb todo "mult" = false ->
      String.eqb todo "set" = false ->
      set_ff_bond_parameters bonds k0 req todo = (Returned tt, bonds)).
Proof.
  split.
  - eexists. split; [apply set_ff_set|]. split; [|split].
    + rewrite map_map. reflexivity.
    + apply Forall_forall. intros kp Hin.
      apply in_map_iff in Hin as ([key p] & <- & _). cbn [snd].
      rewrite !lookup_store. split; reflexivity.
    + rewrite set_ff_set, map_map. apply f_equal. apply map_ext.
      intros [key p]. cbn [fst snd]. now rewrite store_set_twice.
  - intros Hm Hs. induction bonds as [|[key p] bonds IH]; [reflexivity|].
    cbn [set_ff_bond_parameters]. unfold set_bond. rewrite Hm, Hs, IH.
    reflexivity.
Qed.

(** X26.  [set_ff_bond_parameters] with ["mult"], on a force field whose
    bonds all have [k0] and [req], raises nothing, keeps the bond names and
    multiplies the two parameters of every bond by the factors; the first
    bond that lacks one of them raises [KeyError]. *)
Theorem set_ff_bond_parameters_mult (bonds : bonds_dict) (k0 req : scalar) :
  (Forall (fun kp : string * bond_params =>
             lookup (snd kp) "k0" <> None /\ lookup (snd kp) "req" <> None)
          bonds ->
   exists bonds',
     set_ff_bond_parameters bonds k0 req "mult" = (Returned tt, bonds')
     /\ Forall2
          (fun (old new : string * bond_params) =>
             fst new = fst old
             /\ lookup (snd new) "k0"
                = option_map (fun x => fmul x k0) (lookup (snd old) "k0")
             /\ lookup (snd new) "req"
                = option_map (fun y => fmul y req) (lookup (snd old) "req")
             /\ forall name,
                  String.eqb "k0" name = false ->
                  String.eqb "req" name = false ->
                  lookup (snd new) name = lookup (snd old) name)
          bonds bonds')
  /\ (forall key p rest,
        bonds = (key, p) :: rest ->
        lookup p "k0" = None ->
        fst (set_ff_bond_parameters bonds k0 req "mult")
        = Raised (KeyError "k0")).
Proof.
  split.
  - intros Hall. induction Hall as [|[key p] bonds [Hk Hr] _ IH].
    + exists []. split; [reflexivity | constructor].
    + destruct IH as (bonds' & Hrest & Hf2).
      cbn [snd] in Hk, Hr.
      destruct (lookup p "k0") as [x|] eqn:Hx; [|congruence].
      destruct (lookup p "req") as [y|] eqn:Hy; [|congruence].
      assert (Hy' : lookup (store p "k0" (fmul x k0)) "req" = Some y)
        by (rewrite lookup_store; exact Hy).
      exists ((key, store (store p "k0" (fmul x k0)) "req" (fmul y req))
              :: bonds').
      split.
      * cbn [set_ff_bond_parameters]. unfold set_bond.
        cbn [String.eqb Ascii.eqb Bool.eqb andb]. rewrite Hx, Hy', Hrest.
        reflexivity.
      * constructor; [|exact Hf2]. cbn [fst snd].
        rewrite Hx, Hy. repeat split.
        -- now rewrite !lookup_store.
        -- now rewrite !lookup_store.
        -- intros name H0 H1. now rewrite !lookup_store, H1, H0.
  - intros key p rest -> Hx. cbn [set_ff_bond_parameters]. unfold set_bond.
    cbn [String.eqb Ascii.eqb Bool.eqb andb]. rewrite Hx. reflexivity.
Qed.

Lemma set_ff_bond_parameters_mult_witness :
  exists bonds',
    set_ff_bond_parameters ff_example (Finite 2) (Finite 3) "mult"
    = (Returned tt, bonds')
    /\ map fst bonds' = map fst ff_example.
Proof.
  destruct (proj1 (set_ff_bond_parameters_mult ff_example (Finite 2)
                     (Finite 3))) as (bonds' & H & Hf2).
  - repeat constructor; discriminate.
  - exists bonds'. split; [exact H|].
    clear H. induction Hf2 as [|old new l l' (Hfst & _) _ IH];
      [reflexivity|]. simpl. now rewrite Hfst, IH.
Defined.

Lemma set_ff_bond_parameters_set_and_other_witness :
  set_ff_bond_parameters ff_example (Finite 2) (Finite 3) "add"
  = (Returned tt, ff_example).
Proof.
  exact (proj2 (set_ff_bond_parameters_set_and_other ff_example (Finite 2)
                  (Finite 3) "add") eq_refl eq_refl).
Defined.
